(** * SonoffLAN: the account set-up orchestration of
      [custom_components/sonoff/__init__.py]

    The integration entry points ([async_setup_entry], the two bootstrap
    coroutines, the [send_command] service and the device de-duplication
    filter) are embedded as functions over an explicit world: the
    registries stored in [hass.data[DOMAIN]], the module-level
    [UNIQUE_DEVICES] dict, the host store and the trace of calls made to
    the collaborators (cloud, local transport, cameras, logger, host),
    among them the tasks handed to [hass.async_create_task]. *)

From stdpp Require Import gmap strings list fin_maps.

Open Scope string_scope.
Open Scope list_scope.

(* ===================================================================== *)
(** ** Data *)
(* ===================================================================== *)

(** A device is a Python dict.  Every device handled here comes from the
    cloud enumeration or from the cache and carries the key ["deviceid"];
    the record keeps that entry apart and the other entries as a list of
    pairs. *)
Record Device := mkDevice {
  deviceid : string;                      (* device["deviceid"] *)
  fields : list (string * string)         (* every other entry *)
}.

#[global] Instance Device_eq_dec : EqDecision Device.
Proof. solve_decision. Defined.

(** Exceptions that the module raises, or lets through. *)
Inductive Exn :=
| ConfigEntryNotReady (cause : Exn)       (* raise ConfigEntryNotReady(e) *)
| ConfigEntryAuthFailed (cause : Exn)     (* raise ConfigEntryAuthFailed(e) *)
| AuthError (msg : string)                (* core.ewelink.cloud.AuthError *)
| OtherError (msg : string)               (* any other Exception of a collaborator *)
| AssertionError
| KeyError (key : string)
| StopIteration
| RuntimeError (msg : string).

(** [isinstance(e, AuthError)] *)
Definition is_AuthError (e : Exn) : bool :=
  match e with AuthError _ => true | _ => false end.

(** homeassistant.config_entries.ConfigEntryState *)
Inductive ConfigEntryState :=
| LOADED | SETUP_ERROR | MIGRATION_ERROR | SETUP_RETRY | NOT_LOADED
| FAILED_UNLOAD | SETUP_IN_PROGRESS.

#[global] Instance ConfigEntryState_eq_dec : EqDecision ConfigEntryState.
Proof. solve_decision. Defined.

(** The part of a [ConfigEntry] that the module reads.  [None] in
    [data_username], [data_password] and [options_mode] is an absent key. *)
Record ConfigEntry := mkEntry {
  entry_id : string;
  state : ConfigEntryState;
  data_username : option string;          (* entry.data, key CONF_USERNAME *)
  data_password : option string;          (* entry.data, key CONF_PASSWORD *)
  options_mode : option string;           (* entry.options, key CONF_MODE *)
  options_debug : bool;                   (* entry.options.get("debug") *)
  update_listeners : bool                 (* entry.update_listeners is non-empty *)
}.

(** Python truthiness of [entry.data.get(key)]: neither [None] nor [""]. *)
Definition truthy (s : option string) : bool :=
  match s with
  | None => false
  | Some v => negb (String.eqb v "")
  end.

(** [entry.options.get(CONF_MODE, "auto")] *)
Definition get_mode (entry : ConfigEntry) : string :=
  default "auto" (options_mode entry).

(** Modelled from the spec: the class [XRegistry] of [core/ewelink] is not
    part of the sources.  The spec gives a registry a cloud transport with
    the lifecycle flag [auth] (present or absent) and the device map
    [devices], from device id to device; a registry is created without
    authentication and without devices. *)
Record XRegistry := mkRegistry {
  cloud_auth : option string;              (* registry.cloud.auth *)
  devices : gmap string Device             (* registry.devices *)
}.

Definition new_XRegistry : XRegistry :=
  {| cloud_auth := None; devices := ∅ |}.

(** Coroutines handed to [hass.async_create_task]. *)
Inductive Task :=
| TaskNormalSetup (entry : ConfigEntry)   (* internal_normal_setup(hass, entry) *)
| TaskCacheSetup (entry : ConfigEntry).   (* internal_cache_setup(hass, entry) *)

Inductive LogRecord :=
| CantLoginRetry (e : Exn) (mode : string)   (* f"Can't login: {e}. Mode: {mode}" *)
| CantLogin (e : Exn) (mode : string)        (* f"Can't login: {e}, mode: {mode}" *)
| LoadedFromCloud (n : nat)                  (* f"{len(devices)} devices loaded from Cloud" *)
| LoadedFromCache (n : nat)                  (* f"{len(devices)} devices loaded from Cache" *)
| ModeStart (mode : string)                  (* f"{mode.upper()} mode start" *)
| WrongDeviceid (deviceid : string).         (* f"Wrong deviceid {deviceid}" *)

(** Calls to the collaborators, in the order they are made. *)
Inductive Event :=
| EvSetupDebug                                             (* system_health.setup_debug *)
| EvCreateTask (t : Task)                                  (* hass.async_create_task *)
| EvLogin (eid : string) (username password : option string) (* registry.cloud.login *)
| EvGetDevices (eid : string)                              (* registry.cloud.get_devices *)
| EvCloudStart (eid : string)                              (* registry.cloud.start *)
| EvLocalStart (eid : string)                              (* registry.local.start *)
| EvZeroconf                                               (* zeroconf.async_get_instance *)
| EvStoreSave (key : string) (devs : list Device)          (* store.async_save *)
| EvStoreLoad (key : string)                               (* store.async_load *)
| EvForwardEntrySetup (eid : string) (domains : list string)
| EvSetupDevices (eid : string) (devs : list Device)       (* registry.setup_devices *)
| EvAddUpdateListener (eid : string)                       (* entry.add_update_listener *)
| EvOnUnload (eid : string)                                (* entry.async_on_unload(...) *)
| EvSend (eid : string) (device : Device) (data : list (string * string))
                                                           (* registry.send *)
| EvCameraSend (deviceid cmd : string)                     (* cameras.send *)
| EvWarning (r : LogRecord)
| EvDebug (r : LogRecord)
| EvError (r : LogRecord).

(** The world the coroutines run in.  [hass.data[DOMAIN]] is a dict that
    is iterated by [send_command], so it is kept as a list of pairs in
    insertion order. *)
Record World := mkWorld {
  registries : list (string * XRegistry); (* hass.data[DOMAIN] *)
  UNIQUE_DEVICES : gmap string string;    (* device id -> entry id *)
  store : gmap string (list Device);      (* host storage, by key *)
  logger_handlers : bool;                 (* _LOGGER.handlers is non-empty *)
  trace : list Event
}.

Definition PLATFORMS : list string :=
  [ "binary_sensor"; "button"; "climate"; "cover"; "fan"; "light"; "remote";
    "sensor"; "switch" ].

(** Modelled from the spec: the constant [DOMAIN] comes from
    [core/const.py], which is not part of the sources.  The spec gives the
    cache key the format ["<namespace>/<username>.json"]; the namespace
    is taken to be the package name. *)
Definition DOMAIN : string := "sonoff".

(** f"{DOMAIN}/{username}.json" *)
Definition store_key (username : string) : string :=
  DOMAIN +:+ "/" +:+ username +:+ ".json".

(* ===================================================================== *)
(** ** The de-duplication arbiter *)
(* ===================================================================== *)

(** [d.setdefault(k, v)] of a Python dict: the value already bound to
    [k] if there is one, else [v], which is then bound to [k]. *)
Definition setdefault (k v : string) (d : gmap string string)
  : string * gmap string string :=
  match d !! k with
  | Some old => (old, d)
  | None => (v, <[k := v]> d)
  end.

(** The list comprehension of [internal_unique_devices]: the devices are
    visited from left to right, each visit runs
    [UNIQUE_DEVICES.setdefault(device["deviceid"], uid)] and the device is
    kept when the owner that comes back is [uid]. *)
Fixpoint internal_unique_devices (uid : string) (devs : list Device)
    (ud : gmap string string) : list Device * gmap string string :=
  match devs with
  | [] => ([], ud)
  | device :: rest =>
      let '(owner, ud1) := setdefault (deviceid device) uid ud in
      let '(kept, ud2) := internal_unique_devices uid rest ud1 in
      (if String.eqb owner uid then device :: kept else kept, ud2)
  end.

(* ===================================================================== *)
(** ** Effects: state and exceptions *)
(* ===================================================================== *)

(** A coroutine body is a function of the world that gives back either
    the exception it raised or its value, together with the world it
    leaves behind; what was done before a raise stays done. *)
Definition M (A : Type) : Type := World → (Exn + A) * World.

#[global] Instance M_ret : MRet M := λ A a w, (inr a, w).

#[global] Instance M_bind : MBind M := λ A B k c w,
  match c w with
  | (inl e, w1) => (inl e, w1)
  | (inr a, w1) => k a w1
  end.

Definition raise {A} (e : Exn) : M A := λ w, (inl e, w).

(** [try: c] with the exception, if any, handed to the continuation. *)
Definition try_ {A} (c : M A) : M (Exn + A) := λ w,
  let '(r, w1) := c w in (inr r, w1).

Definition assert_ (b : bool) : M unit :=
  if b then mret tt else raise AssertionError.

Definition when (b : bool) (c : M unit) : M unit :=
  if b then c else mret tt.

Definition gets {A} (f : World → A) : M A := λ w, (inr (f w), w).

Definition emit (ev : Event) : M unit := λ w,
  (inr tt, {| registries := registries w; UNIQUE_DEVICES := UNIQUE_DEVICES w;
              store := store w; logger_handlers := logger_handlers w;
              trace := trace w ++ [ev] |}).

(** [hass.async_create_task(coro)]: the task is left to the loop. *)
Definition async_create_task (t : Task) : M unit := emit (EvCreateTask t).

Definition set_registries (rs : list (string * XRegistry)) : M unit := λ w,
  (inr tt, {| registries := rs; UNIQUE_DEVICES := UNIQUE_DEVICES w;
              store := store w; logger_handlers := logger_handlers w;
              trace := trace w |}).

Definition set_UNIQUE_DEVICES (ud : gmap string string) : M unit := λ w,
  (inr tt, {| registries := registries w; UNIQUE_DEVICES := ud;
              store := store w; logger_handlers := logger_handlers w;
              trace := trace w |}).

Definition set_store (s : gmap string (list Device)) : M unit := λ w,
  (inr tt, {| registries := registries w; UNIQUE_DEVICES := UNIQUE_DEVICES w;
              store := s; logger_handlers := logger_handlers w;
              trace := trace w |}).

(** *** The dict [hass.data[DOMAIN]] *)

(** [d.get(eid)] *)
Fixpoint data_get (eid : string) (d : list (string * XRegistry))
  : option XRegistry :=
  match d with
  | [] => None
  | (k, r) :: d' => if String.eqb k eid then Some r else data_get eid d'
  end.

(** [d[eid] = r]: a bound key keeps its place, a new key goes last. *)
Fixpoint data_set (eid : string) (r : XRegistry) (d : list (string * XRegistry))
  : list (string * XRegistry) :=
  match d with
  | [] => [(eid, r)]
  | (k, r0) :: d' =>
      if String.eqb k eid then (k, r) :: d' else (k, r0) :: data_set eid r d'
  end.

(** [hass.data[DOMAIN][eid]] *)
Definition hass_data_index (eid : string) : M XRegistry :=
  rs ← gets registries;
  match data_get eid rs with
  | Some r => mret r
  | None => raise (KeyError eid)
  end.

Definition update_registry (eid : string) (f : XRegistry → XRegistry) : M unit :=
  r ← hass_data_index eid;
  rs ← gets registries;
  set_registries (data_set eid (f r) rs).

(** [entry.data['username']] *)
Definition data_index_username (entry : ConfigEntry) : M string :=
  match data_username entry with
  | Some u => mret u
  | None => raise (KeyError "username")
  end.

(** *** Collaborators *)

(** What the cloud answers to the calls of one coroutine run. *)
Inductive LoginOutcome :=
| LoginSuccess (auth : string)
| LoginRaises (e : Exn).

Record Env := mkEnv {
  login_outcome : LoginOutcome;           (* of registry.cloud.login *)
  cloud_devices : list Device             (* of registry.cloud.get_devices *)
}.

(** Modelled from the spec: [XRegistryCloud.login] of [core/ewelink/cloud.py]
    is not part of the sources.  The spec gives it the results
    [AuthFailure | TransientFailure | Success(authToken)]; a success
    records the authentication in the flag [auth], a failure raises and
    leaves the flag as it was. *)
Definition cloud_login (env : Env) (eid : string)
    (username password : option string) : M unit :=
  emit (EvLogin eid username password);;
  match login_outcome env with
  | LoginSuccess a =>
      update_registry eid (λ r, {| cloud_auth := Some a; devices := devices r |})
  | LoginRaises e => raise e
  end.

Definition cloud_get_devices (env : Env) (eid : string) : M (list Device) :=
  emit (EvGetDevices eid);; mret (cloud_devices env).

Definition cloud_start (eid : string) : M unit := emit (EvCloudStart eid).

Definition local_start (eid : string) : M unit := emit (EvLocalStart eid).

(** [registry.cloud.auth] *)
Definition registry_cloud_auth (eid : string) : M (option string) :=
  r ← hass_data_index eid; mret (cloud_auth r).

(** Modelled from the spec: [XRegistry.setup_devices] is not part of the
    sources.  The spec says it replaces/merges the owned device map:
    every device given is bound to its id in [registry.devices]. *)
Definition merge_devices (devs : list Device) (m : gmap string Device)
  : gmap string Device :=
  foldl (λ acc d, <[deviceid d := d]> acc) m devs.

Definition setup_devices (eid : string) (devs : list Device) : M unit :=
  emit (EvSetupDevices eid devs);;
  update_registry eid
    (λ r, {| cloud_auth := cloud_auth r; devices := merge_devices devs (devices r) |}).

(** The host store: [Store(hass, 1, key).async_save] and [.async_load];
    a key never saved loads as [None]. *)
Definition store_async_save (key : string) (devs : list Device) : M unit :=
  emit (EvStoreSave key devs);;
  s ← gets store;
  set_store (<[key := devs]> s).

Definition store_async_load (key : string) : M (option (list Device)) :=
  emit (EvStoreLoad key);;
  s ← gets store;
  mret (s !! key).

(** Truthiness of a list that may be [None]. *)
Definition devices_truthy (devs : option (list Device)) : bool :=
  match devs with
  | Some (_ :: _) => true
  | _ => false
  end.

(** [mode in (m1, m2)] *)
Definition mode_in (mode : string) (ms : list string) : bool :=
  existsb (String.eqb mode) ms.

(* ===================================================================== *)
(** ** The coroutines of the module *)
(* ===================================================================== *)

(** Lines 206-209 of [internal_cache_setup]: the device population.  No
    [await] separates the filter from [registry.setup_devices], so the two
    always run as one step. *)
Definition populate_devices (eid : string) (devs : option (list Device)) : M unit :=
  _ ← hass_data_index eid;
  match devs with
  | Some (d :: ds) =>
      ud ← gets UNIQUE_DEVICES;
      let '(owned, ud') := internal_unique_devices eid (d :: ds) ud in
      set_UNIQUE_DEVICES ud';;
      setup_devices eid owned
  | _ => mret tt
  end.

Definition internal_cache_setup (entry : ConfigEntry)
    (devs : option (list Device)) : M unit :=
  let eid := entry_id entry in
  emit (EvForwardEntrySetup eid PLATFORMS);;
  devs ← match devs with
         | None =>
             username ← data_index_username entry;
             loaded ← store_async_load (store_key username);
             when (devices_truthy loaded)
               (emit (EvDebug (LoadedFromCache (length (default [] loaded)))));;
             mret loaded
         | Some d => mret (Some d)
         end;
  populate_devices eid devs;;
  let mode := get_mode entry in
  auth ← registry_cloud_auth eid;
  when (negb (String.eqb mode "local") && bool_decide (is_Some auth))
    (cloud_start eid);;
  when (negb (String.eqb mode "cloud"))
    (emit EvZeroconf;; local_start eid);;
  emit (EvDebug (ModeStart mode));;
  when (negb (update_listeners entry)) (emit (EvAddUpdateListener eid));;
  emit (EvOnUnload eid).

Definition internal_normal_setup (env : Env) (entry : ConfigEntry) : M unit :=
  let eid := entry_id entry in
  auth ← registry_cloud_auth eid;
  devs ← (if bool_decide (is_Some auth) then
            devs ← cloud_get_devices env eid;
            emit (EvDebug (LoadedFromCloud (length devs)));;
            username ← data_index_username entry;
            store_async_save (store_key username) devs;;
            mret (Some devs)
          else mret None);
  internal_cache_setup entry devs.

(** The first-attempt login block of [async_setup_entry] (lines 146-158):
    [Some b] when the block returns [b], [None] when control goes on to
    line 160. *)
Definition first_login (env : Env) (entry : ConfigEntry) : M (option bool) :=
  let eid := entry_id entry in
  let username := data_username entry in
  let password := data_password entry in
  let mode := get_mode entry in
  auth ← registry_cloud_auth eid;
  if bool_decide (auth = None) && truthy username && truthy password then
    r ← try_ (cloud_login env eid username password);
    match r with
    | inl e =>
        emit (EvWarning (CantLogin e mode));;
        when (mode_in mode ["auto"; "local"])
          (async_create_task (TaskCacheSetup entry));;
        when (mode_in mode ["auto"; "cloud"])
          (if is_AuthError e then raise (ConfigEntryAuthFailed e)
           else raise (ConfigEntryNotReady e));;
        assert_ (String.eqb mode "local");;
        mret (Some true)
    | inr _ => mret None
    end
  else mret None.

Definition async_setup_entry (env : Env) (entry : ConfigEntry) : M bool :=
  let eid := entry_id entry in
  rs ← gets registries;
  when (bool_decide (data_get eid rs = None))
    (set_registries (data_set eid new_XRegistry rs));;
  handlers ← gets logger_handlers;
  when (options_debug entry && negb handlers) (emit EvSetupDebug);;
  let username := data_username entry in
  let password := data_password entry in
  let mode := get_mode entry in
  if bool_decide (state entry = SETUP_RETRY) then
    (* retry only when can't login first time *)
    assert_ (mode_in mode ["auto"; "cloud"]);;
    r ← try_ (cloud_login env eid username password);
    match r with
    | inl e =>
        emit (EvWarning (CantLoginRetry e mode));;
        raise (ConfigEntryNotReady e)
    | inr _ =>
        (if String.eqb mode "auto" then cloud_start eid
         else when (String.eqb mode "cloud")
                (async_create_task (TaskNormalSetup entry)));;
        mret true
    end
  else
    early ← first_login env entry;
    match early with
    | Some b => mret b
    | None =>
        async_create_task (TaskNormalSetup entry);;
        mret true
    end.

(** *** The [send_command] service *)

(** [call.data]: the entry ["device"], already through [str], and the
    other entries. *)
Record ServiceCall := mkCall {
  call_device : option string;
  call_data : list (string * string)
}.

(** [d[k]] on the remaining entries of [call.data] *)
Fixpoint dict_index (k : string) (d : list (string * string)) : option string :=
  match d with
  | [] => None
  | (k', v) :: d' => if String.eqb k' k then Some v else dict_index k d'
  end.

Definition holds_device (deviceid : string) (p : string * XRegistry) : bool :=
  bool_decide (is_Some (devices (snd p) !! deviceid)).

(** The body of [send_command].  [next] on a generator that yields nothing
    raises [StopIteration]. *)
Definition send_command_body (call : ServiceCall) : M unit :=
  deviceid ← match call_device call with
             | Some d => mret d
             | None => raise (KeyError "device")
             end;
  let data := call_data call in
  if Nat.eqb (String.length deviceid) 10 then
    rs ← gets registries;
    match find (holds_device deviceid) rs with
    | None => raise StopIteration
    | Some (eid, registry) =>
        match devices registry !! deviceid with
        | Some device => emit (EvSend eid device data)
        | None => raise (KeyError deviceid)
        end
    end
  else if Nat.eqb (String.length deviceid) 6 then
    match dict_index "cmd" data with
    | Some cmd => emit (EvCameraSend deviceid cmd)
    | None => raise (KeyError "cmd")
    end
  else emit (EvError (WrongDeviceid deviceid)).

(** A [StopIteration] that escapes the body of a coroutine reaches the
    caller as a [RuntimeError] (PEP 479). *)
Definition coroutine {A} (body : M A) : M A := λ w,
  match body w with
  | (inl StopIteration, w1) => (inl (RuntimeError "coroutine raised StopIteration"), w1)
  | r => r
  end.

Definition send_command (call : ServiceCall) : M unit :=
  coroutine (send_command_body call).

(** *** The event loop *)

Definition run_task (env : Env) (t : Task) : M unit :=
  match t with
  | TaskNormalSetup entry => internal_normal_setup env entry
  | TaskCacheSetup entry => internal_cache_setup entry None
  end.

(** The events that [w1] has after those of [w]. *)
Definition new_events (w w1 : World) : list Event :=
  drop (length (trace w)) (trace w1).

(** The tasks created by a run of events, oldest first. *)
Definition created_tasks (evs : list Event) : list Task :=
  omap (λ ev, match ev with EvCreateTask t => Some t | _ => None end) evs.

(** The loop runs the tasks one after the other; an exception that ends
    a task does not reach whoever created it. *)
Definition run_tasks (env : Env) (ts : list Task) (w : World) : World :=
  foldl (λ w1 t, (run_task env t w1).2) w ts.

(** One invocation of [async_setup_entry] by the host, then the tasks it
    left to the loop. *)
Definition setup_cycle (env : Env) (entry : ConfigEntry) (w : World)
  : (Exn + bool) * World :=
  let '(r, w1) := async_setup_entry env entry w in
  (r, run_tasks env (created_tasks (new_events w w1)) w1).

(** The entry as the host hands it over on a retry. *)
Definition in_retry (entry : ConfigEntry) : ConfigEntry :=
  {| entry_id := entry_id entry; state := SETUP_RETRY;
     data_username := data_username entry;
     data_password := data_password entry;
     options_mode := options_mode entry;
     options_debug := options_debug entry;
     update_listeners := update_listeners entry |}.

(** The retries of the host: as long as an invocation ends with
    [ConfigEntryNotReady], the host invokes [async_setup_entry] again with
    the entry in the retry state; [envs] gives what the cloud answers to
    each of these invocations in turn. *)
Fixpoint retry_cycles (envs : list Env) (entry : ConfigEntry) (w : World)
  : World :=
  match envs with
  | [] => w
  | env :: envs' =>
      let '(r, w1) := setup_cycle env (in_retry entry) w in
      match r with
      | inl (ConfigEntryNotReady _) => retry_cycles envs' entry w1
      | _ => w1
      end
  end.

(** [registry.devices] of the registry stored under [eid]; empty when no
    registry is stored there. *)
Definition registry_devices (eid : string) (w : World) : gmap string Device :=
  match data_get eid (registries w) with
  | Some r => devices r
  | None => ∅
  end.

(** [registry.cloud.auth] of the registry stored under [eid]; a registry
    yet to be created has none. *)
Definition registry_auth (eid : string) (w : World) : option string :=
  match data_get eid (registries w) with
  | Some r => cloud_auth r
  | None => None
  end.

(** [hass.data[DOMAIN]] once lines 120-123 of [async_setup_entry] have
    run for the entry [eid]. *)
Definition ensure_registry (eid : string) (rs : list (string * XRegistry))
  : list (string * XRegistry) :=
  match data_get eid rs with
  | Some _ => rs
  | None => data_set eid new_XRegistry rs
  end.

(** What lines 125-126 of [async_setup_entry] add to the trace. *)
Definition debug_events (entry : ConfigEntry) (w : World) : list Event :=
  if options_debug entry && negb (logger_handlers w) then [EvSetupDebug] else [].

(** The world that [async_setup_entry] leaves when, after its first lines,
    it makes the calls [evs] and touches nothing else. *)
Definition after_prelude (entry : ConfigEntry) (w : World) (evs : list Event)
  : World :=
  {| registries := ensure_registry (entry_id entry) (registries w);
     UNIQUE_DEVICES := UNIQUE_DEVICES w; store := store w;
     logger_handlers := logger_handlers w;
     trace := trace w ++ debug_events entry w ++ evs |}.

Definition is_login (ev : Event) : bool :=
  match ev with EvLogin _ _ _ => true | _ => false end.

Definition is_cloud_start (ev : Event) : bool :=
  match ev with EvCloudStart _ => true | _ => false end.

Definition is_local_start (ev : Event) : bool :=
  match ev with EvLocalStart _ => true | _ => false end.

(** A call to a transport: the cloud or local registry, or the cameras. *)
Definition is_transport_call (ev : Event) : bool :=
  match ev with EvSend _ _ _ | EvCameraSend _ _ => true | _ => false end.

Definition is_log (ev : Event) : bool :=
  match ev with EvWarning _ | EvDebug _ | EvError _ => true | _ => false end.

Definition is_setup_devices (ev : Event) : bool :=
  match ev with EvSetupDevices _ _ => true | _ => false end.

Definition is_get_devices (ev : Event) : bool :=
  match ev with EvGetDevices _ => true | _ => false end.

(* ===================================================================== *)
(** ** The entry point [async_setup] *)
(* ===================================================================== *)

(** The section of the YAML configuration under [DOMAIN], as far as
    [async_setup] reads it; [None] in a field is an absent key. *)
Record YamlConfig := mkYaml {
  yaml_username : option string;          (* key CONF_USERNAME *)
  yaml_password : option string           (* key CONF_PASSWORD *)
}.

(** What [async_setup] does besides resetting [hass.data[DOMAIN]], in the
    order it does it. *)
Inductive SetupCall :=
| SetRegistryConfig (config : option YamlConfig)  (* XRegistry.config = config.get(DOMAIN) *)
| NewCameras                                      (* cameras = XCameras() *)
| FlowInit (username password : string)           (* the import flow, as a task *)
| RegisterService (name : string).                (* hass.services.async_register *)

(** The dict [data] built in the [try] block (lines 71-74); [None] when
    building it raises: [XRegistry.config] is [None], or a key is
    absent. *)
Definition yaml_import_data (config : option YamlConfig)
  : option (string * string) :=
  match config with
  | None => None
  | Some c =>
      match yaml_username c with
      | None => None
      | Some u =>
          match yaml_password c with
          | None => None
          | Some p => Some (u, p)
          end
      end
  end.

(** [async_setup]: [hass_version_supported] is the flag of the module
    [backward], [has_entries] tells whether
    [hass.config_entries.async_entries(DOMAIN)] is non-empty.  An
    exception of the [try] block is swallowed. *)
Definition async_setup (hass_version_supported : bool)
    (config : option YamlConfig) (has_entries : bool) (w : World)
  : bool * World * list SetupCall :=
  if negb hass_version_supported then (false, w, [])
  else
    let w1 := {| registries := []; UNIQUE_DEVICES := UNIQUE_DEVICES w;
                 store := store w; logger_handlers := logger_handlers w;
                 trace := trace w |} in
    let import :=
      match yaml_import_data config with
      | Some (u, p) => if negb has_entries then [FlowInit u p] else []
      | None => []
      end in
    (true, w1,
     [SetRegistryConfig config; NewCameras] ++ import ++
     [RegisterService "send_command"]).

(* ===================================================================== *)
(** ** Notions used by the further properties *)
(* ===================================================================== *)

(** The test that [internal_unique_devices] comes down to: the id of the
    device is free in the table, or bound to [uid]. *)
Definition owner_allows (uid : string) (ud : gmap string string) (d : Device)
  : bool :=
  match ud !! deviceid d with
  | None => true
  | Some o => String.eqb o uid
  end.

(** Every device of a registry sits under its own id, and
    [UNIQUE_DEVICES] names the entry of that registry as the owner of the
    id; no entry id occurs twice in [hass.data[DOMAIN]]. *)
Definition registries_inv (rs : list (string * XRegistry))
    (ud : gmap string string) : Prop :=
  NoDup rs.*1 ∧
  ∀ eid r id d,
    data_get eid rs = Some r → devices r !! id = Some d →
    deviceid d = id ∧ ud !! id = Some eid.

Definition registry_inv (w : World) : Prop :=
  registries_inv (registries w) (UNIQUE_DEVICES w).

(** The registries after the population step of the entry [eid] has
    merged [kept] into its registry [r]; a list [devs] without devices
    skips the step. *)
Definition populated (eid : string) (devs kept : list Device) (r : XRegistry)
    (rs : list (string * XRegistry)) : list (string * XRegistry) :=
  match devs with
  | [] => rs
  | _ => data_set eid {| cloud_auth := cloud_auth r;
                         devices := merge_devices kept (devices r) |} rs
  end.

(** Set-up cycles run one after the other, each with the answers of the
    cloud and the entry it is for. *)
Definition run_cycles (cs : list (Env * ConfigEntry)) (w : World) : World :=
  foldl (λ w1 c, (setup_cycle c.1 c.2 w1).2) w cs.

(** No [registry.setup_devices] comes after a [cloud.start] or a
    [local.start]. *)
Fixpoint population_before_starts (evs : list Event) : bool :=
  match evs with
  | [] => true
  | ev :: rest =>
      (if is_cloud_start ev || is_local_start ev
       then negb (existsb is_setup_devices rest) else true)
      && population_before_starts rest
  end.

(* ===================================================================== *)
(** ** The de-duplication arbiter: properties *)
(* ===================================================================== *)

Section Arbiter.

Implicit Types (ud : gmap string string) (devs : list Device).

Lemma setdefault_owner k v ud :
  (setdefault k v ud).2 !! k = Some (setdefault k v ud).1.
Proof.
  unfold setdefault. destruct (ud !! k) eqn:E; simpl; [done|].
  by rewrite lookup_insert_eq.
Qed.

Lemma setdefault_keeps k v ud k' o :
  ud !! k' = Some o → (setdefault k v ud).2 !! k' = Some o.
Proof.
  intros Hk. unfold setdefault. destruct (ud !! k) eqn:E; simpl; [done|].
  rewrite lookup_insert_ne; [done|]. intros ->. congruence.
Qed.

Lemma setdefault_other k v ud k' :
  k ≠ k' → (setdefault k v ud).2 !! k' = ud !! k'.
Proof.
  intros Hne. unfold setdefault. destruct (ud !! k); simpl; [done|].
  by rewrite lookup_insert_ne.
Qed.

Lemma setdefault_bound k v ud o :
  ud !! k = Some o → setdefault k v ud = (o, ud).
Proof. intros H. unfold setdefault. by rewrite H. Qed.

Lemma setdefault_free k v ud :
  ud !! k = None → setdefault k v ud = (v, <[k := v]> ud).
Proof. intros H. unfold setdefault. by rewrite H. Qed.

Lemma internal_unique_devices_cons uid d devs ud :
  internal_unique_devices uid (d :: devs) ud =
    let r := setdefault (deviceid d) uid ud in
    let r' := internal_unique_devices uid devs r.2 in
    (if String.eqb r.1 uid then d :: r'.1 else r'.1, r'.2).
Proof.
  simpl. destruct (setdefault _ _ _) as [o ud1]. simpl.
  by destruct (internal_unique_devices _ _ _).
Qed.

(** An owner, once recorded, is there for good. *)
Lemma internal_unique_devices_keeps uid devs ud k o :
  ud !! k = Some o → (internal_unique_devices uid devs ud).2 !! k = Some o.
Proof.
  revert ud. induction devs as [|d devs IH]; intros ud Hk; [done|].
  rewrite internal_unique_devices_cons. simpl.
  apply IH. by apply setdefault_keeps.
Qed.

Lemma internal_unique_devices_sublist uid devs ud :
  (internal_unique_devices uid devs ud).1 `sublist_of` devs.
Proof.
  revert ud. induction devs as [|d devs IH]; intros ud; [done|].
  rewrite internal_unique_devices_cons. simpl.
  destruct (String.eqb _ uid).
  - apply sublist_skip, IH.
  - apply sublist_cons, IH.
Qed.

Lemma internal_unique_devices_owned uid devs ud d :
  d ∈ (internal_unique_devices uid devs ud).1 →
  (internal_unique_devices uid devs ud).2 !! deviceid d = Some uid.
Proof.
  revert ud. induction devs as [|d0 devs IH]; intros ud.
  - simpl. by intros ?%elem_of_nil.
  - rewrite internal_unique_devices_cons. simpl.
    destruct (String.eqb_spec (setdefault (deviceid d0) uid ud).1 uid) as [Ho|Ho].
    + intros [->|Hin]%elem_of_cons; [|by apply IH].
      apply internal_unique_devices_keeps.
      rewrite setdefault_owner. by rewrite Ho.
    + apply IH.
Qed.

(** A device whose id is free, or already bound to [uid], is kept. *)
Lemma internal_unique_devices_granted uid devs ud d :
  d ∈ devs →
  (∀ o, ud !! deviceid d = Some o → o = uid) →
  d ∈ (internal_unique_devices uid devs ud).1.
Proof.
  revert ud. induction devs as [|d0 devs IH]; intros ud Hin Hfree.
  - by apply elem_of_nil in Hin.
  - rewrite internal_unique_devices_cons. simpl.
    assert (Hnext : ∀ o, (setdefault (deviceid d0) uid ud).2 !! deviceid d = Some o
                         → o = uid).
    { intros o. destruct (decide (deviceid d0 = deviceid d)) as [E|E].
      - rewrite <- E, setdefault_owner. intros [= <-].
        unfold setdefault. destruct (ud !! deviceid d0) eqn:El; simpl; [|done].
        apply Hfree. by rewrite <- E.
      - rewrite setdefault_other by done. apply Hfree. }
    apply elem_of_cons in Hin as [->|Hin].
    + assert (Ho : (setdefault (deviceid d0) uid ud).1 = uid).
      { apply Hnext. apply setdefault_owner. }
      rewrite Ho, String.eqb_refl. apply elem_of_cons. by left.
    + destruct (String.eqb _ uid); [apply elem_of_cons; right|]; by apply IH.
Qed.

(** A device whose id is bound to somebody else is dropped. *)
Lemma internal_unique_devices_refused uid devs ud d o :
  ud !! deviceid d = Some o → o ≠ uid →
  d ∉ (internal_unique_devices uid devs ud).1.
Proof.
  intros Ho Hne Hin. apply internal_unique_devices_owned in Hin.
  rewrite (internal_unique_devices_keeps _ _ _ _ _ Ho) in Hin. congruence.
Qed.

End Arbiter.

(** C4.  The claim [UNIQUE_DEVICES.setdefault(id, A)] is idempotent and
    first-write-wins: a second claim by [A] returns the owner the first
    one returned and changes nothing; a claim by any [B] made afterwards
    leaves the table as it is; and once the claim of [A] has been granted,
    that later claim by [B] returns [A]. *)
Theorem claim_idempotent_first_write_wins
    (ud : gmap string string) (id A B : string) :
  let first := setdefault id A ud in
  (setdefault id A first.2).1 = first.1 ∧
  (setdefault id A first.2).2 = first.2 ∧
  (setdefault id B first.2).2 = first.2 ∧
  (first.1 = A → setdefault id B first.2 = (A, first.2)).
Proof.
  intros first.
  pose proof (setdefault_owner id A ud) as Hown. fold first in Hown.
  rewrite (setdefault_bound id A _ _ Hown), (setdefault_bound id B _ _ Hown).
  simpl. repeat split. by intros ->.
Qed.

Lemma claim_idempotent_first_write_wins_witness :
  setdefault "1000abcd12" "B" (setdefault "1000abcd12" "A" ∅).2
  = ("A", (setdefault "1000abcd12" "A" ∅).2).
Proof.
  apply (claim_idempotent_first_write_wins ∅ "1000abcd12" "A" "B").
  reflexivity.
Defined.

(** C9.  For every list of devices and every account id,
    [internal_unique_devices] returns a subsequence of its input (same
    relative order, nothing new), and when it returns every device of the
    result has its id bound to that account in [UNIQUE_DEVICES]. *)
Theorem internal_unique_devices_subsequence_owned
    (uid : string) (devs : list Device) (ud : gmap string string) :
  let r := internal_unique_devices uid devs ud in
  r.1 `sublist_of` devs ∧
  ∀ d, d ∈ r.1 → r.2 !! deviceid d = Some uid.
Proof.
  split.
  - apply internal_unique_devices_sublist.
  - intros d. apply internal_unique_devices_owned.
Qed.

Lemma internal_unique_devices_subsequence_owned_witness :
  (internal_unique_devices "A"
     [mkDevice "1000abcd12" []; mkDevice "1000abcd13" []]
     {[ "1000abcd12" := "B" ]}).2 !! "1000abcd13" = Some "A".
Proof.
  apply (proj2 (internal_unique_devices_subsequence_owned "A"
                  [mkDevice "1000abcd12" []; mkDevice "1000abcd13" []]
                  {[ "1000abcd12" := "B" ]}) (mkDevice "1000abcd13" [])).
  vm_compute. apply list_elem_of_here.
Defined.

(* ===================================================================== *)
(** ** Device population *)
(* ===================================================================== *)

Section Population.

Implicit Types (rs : list (string * XRegistry)) (m : gmap string Device).

Lemma data_get_set_eq eid r rs : data_get eid (data_set eid r rs) = Some r.
Proof.
  induction rs as [|[k r0] rs IH]; simpl.
  - by rewrite String.eqb_refl.
  - destruct (String.eqb_spec k eid) as [->|Hne]; simpl.
    + by rewrite String.eqb_refl.
    + destruct (String.eqb_spec k eid); [done|]. apply IH.
Qed.

Lemma data_get_set_ne eid eid' r rs :
  eid ≠ eid' → data_get eid' (data_set eid r rs) = data_get eid' rs.
Proof.
  intros Hne. induction rs as [|[k r0] rs IH]; simpl.
  - destruct (String.eqb_spec eid eid'); [done|]. done.
  - destruct (String.eqb_spec k eid) as [->|Hk]; simpl.
    + destruct (String.eqb_spec eid eid'); [done|]. done.
    + destruct (String.eqb_spec k eid'); [done|]. apply IH.
Qed.

Lemma merge_devices_snoc devs d m :
  merge_devices (devs ++ [d]) m = <[deviceid d := d]> (merge_devices devs m).
Proof. unfold merge_devices. by rewrite foldl_snoc. Qed.

(** Ids outside the list are left as they were. *)
Lemma merge_devices_untouched devs m id :
  (∀ d, d ∈ devs → deviceid d ≠ id) →
  merge_devices devs m !! id = m !! id.
Proof.
  induction devs as [|d devs IH] using rev_ind; intros Hout; [done|].
  rewrite merge_devices_snoc, lookup_insert_ne.
  - apply IH. intros d' Hd'. apply Hout, elem_of_app. by left.
  - apply Hout, elem_of_app. right. apply list_elem_of_here.
Qed.

(** An id of the list is bound, to a device of the list with that id. *)
Lemma merge_devices_bound devs m d :
  d ∈ devs →
  ∃ d', merge_devices devs m !! deviceid d = Some d' ∧ d' ∈ devs ∧
        deviceid d' = deviceid d.
Proof.
  induction devs as [|d0 devs IH] using rev_ind; intros Hin.
  - by apply elem_of_nil in Hin.
  - rewrite merge_devices_snoc.
    destruct (decide (deviceid d0 = deviceid d)) as [E|E].
    + exists d0. rewrite <- E, lookup_insert_eq. split; [done|]. split; [|done].
      apply elem_of_app. right. apply list_elem_of_here.
    + rewrite lookup_insert_ne by done.
      apply elem_of_app in Hin as [Hin|Hin].
      * destruct (IH Hin) as (d' & Hl & Hd' & Hid). exists d'.
        split; [done|]. split; [|done]. apply elem_of_app. by left.
      * apply list_elem_of_singleton in Hin. by subst.
Qed.

(** What one population step does when the registry is stored and the
    list is not empty. *)
Lemma populate_devices_run eid d ds w r :
  data_get eid (registries w) = Some r →
  populate_devices eid (Some (d :: ds)) w =
    let res := internal_unique_devices eid (d :: ds) (UNIQUE_DEVICES w) in
    (inr tt,
     {| registries :=
          data_set eid {| cloud_auth := cloud_auth r;
                          devices := merge_devices res.1 (devices r) |}
            (registries w);
        UNIQUE_DEVICES := res.2; store := store w;
        logger_handlers := logger_handlers w;
        trace := trace w ++ [EvSetupDevices eid res.1] |}).
Proof.
  intros Hr. unfold populate_devices, hass_data_index, gets.
  unfold mbind, M_bind. cbn -[internal_unique_devices]. rewrite Hr.
  cbn -[internal_unique_devices].
  destruct (internal_unique_devices eid (d :: ds) (UNIQUE_DEVICES w))
    as [kept ud'].
  unfold setup_devices, update_registry, hass_data_index, gets, emit,
    set_UNIQUE_DEVICES, set_registries, mbind, M_bind. simpl.
  rewrite Hr. simpl. reflexivity.
Qed.

End Population.

(** C5.  Two accounts [A] and [B] both report a device with the same id.
    The id is not yet bound to a third account and the registry of [B]
    does not hold it.  When the population of [A] runs before that of
    [B], both complete, the registry of [A] then holds a device of [A]'s
    list under that id and the registry of [B] holds none. *)
Theorem first_populated_account_owns_shared_device
    (w : World) (A B : string) (devsA devsB : list Device) (dA dB : Device) :
  A ≠ B →
  is_Some (data_get A (registries w)) →
  is_Some (data_get B (registries w)) →
  dA ∈ devsA → dB ∈ devsB → deviceid dA = deviceid dB →
  (∀ o, UNIQUE_DEVICES w !! deviceid dA = Some o → o = A) →
  registry_devices B w !! deviceid dA = None →
  let runA := populate_devices A (Some devsA) w in
  let runB := populate_devices B (Some devsB) runA.2 in
  runA.1 = inr tt ∧ runB.1 = inr tt ∧
  (∃ d, registry_devices A runB.2 !! deviceid dA = Some d ∧
        d ∈ devsA ∧ deviceid d = deviceid dA) ∧
  registry_devices B runB.2 !! deviceid dA = None.
Proof.
  intros Hne [rA HrA] [rB HrB] HinA HinB Hid Hfree HB runA runB.
  destruct devsA as [|a devsA]; [by apply elem_of_nil in HinA|].
  destruct devsB as [|b devsB]; [by apply elem_of_nil in HinB|].
  subst runB runA. rewrite (populate_devices_run A a devsA w rA HrA).
  set (resA := internal_unique_devices A (a :: devsA) (UNIQUE_DEVICES w)).
  cbn zeta. cbn [fst snd].
  set (rA' := {| cloud_auth := cloud_auth rA;
                 devices := merge_devices resA.1 (devices rA) |}).
  set (wA := {| registries := data_set A rA' (registries w);
                UNIQUE_DEVICES := resA.2; store := store w;
                logger_handlers := logger_handlers w;
                trace := trace w ++ [EvSetupDevices A resA.1] |}).
  assert (HrB' : data_get B (registries wA) = Some rB).
  { simpl. by rewrite data_get_set_ne. }
  rewrite (populate_devices_run B b devsB wA rB HrB').
  set (resB := internal_unique_devices B (b :: devsB) (UNIQUE_DEVICES wA)).
  cbn zeta. cbn [fst snd].
  assert (HkeptA : dA ∈ resA.1)
    by (by apply internal_unique_devices_granted).
  assert (HownA : UNIQUE_DEVICES wA !! deviceid dA = Some A)
    by (by apply internal_unique_devices_owned).
  split; [done|]. split; [done|]. split.
  - unfold registry_devices. cbn [registries]. unfold wA. cbn [registries].
    rewrite data_get_set_ne by done. rewrite data_get_set_eq.
    unfold rA'. cbn [devices].
    destruct (merge_devices_bound resA.1 (devices rA) dA HkeptA)
      as (d & Hl & Hd & Hdid).
    exists d. split; [done|]. split; [|done].
    eapply elem_of_sublist; [exact Hd|]. apply internal_unique_devices_sublist.
  - unfold registry_devices. cbn [registries].
    rewrite data_get_set_eq. cbn [devices].
    rewrite merge_devices_untouched.
    + unfold registry_devices in HB. by rewrite HrB in HB.
    + intros d Hd Hdid.
      eapply (internal_unique_devices_refused B (b :: devsB) (UNIQUE_DEVICES wA) d A);
        [by rewrite Hdid| done | exact Hd].
Qed.

Lemma first_populated_account_owns_shared_device_witness :
  let w := {| registries := [("A", new_XRegistry); ("B", new_XRegistry)];
              UNIQUE_DEVICES := ∅; store := ∅; logger_handlers := false;
              trace := [] |} in
  let dA := mkDevice "1000abcd12" [("name", "plug")] in
  let dB := mkDevice "1000abcd12" [] in
  let runA := populate_devices "A" (Some [dA]) w in
  let runB := populate_devices "B" (Some [mkDevice "1000abcd99" []; dB]) runA.2 in
  runA.1 = inr tt ∧ runB.1 = inr tt ∧
  (∃ d, registry_devices "A" runB.2 !! "1000abcd12" = Some d ∧
        d ∈ [dA] ∧ deviceid d = "1000abcd12") ∧
  registry_devices "B" runB.2 !! "1000abcd12" = None.
Proof.
  intros w dA dB.
  apply (first_populated_account_owns_shared_device w "A" "B"
           [dA] [mkDevice "1000abcd99" []; dB] dA dB).
  - discriminate.
  - by eexists.
  - by eexists.
  - apply list_elem_of_here.
  - apply list_elem_of_further, list_elem_of_here.
  - reflexivity.
  - intros o. vm_compute. discriminate.
  - vm_compute. reflexivity.
Defined.

(* ===================================================================== *)
(** ** The set-up orchestration: running the coroutines *)
(* ===================================================================== *)

Lemma new_events_app w evs r u s h :
  new_events w {| registries := r; UNIQUE_DEVICES := u; store := s;
                  logger_handlers := h; trace := trace w ++ evs |} = evs.
Proof. unfold new_events. simpl. apply drop_app_length. Qed.

Lemma new_events_after_prelude entry w evs :
  new_events w (after_prelude entry w evs) = debug_events entry w ++ evs.
Proof. apply new_events_app. Qed.

Lemma created_tasks_debug_events entry w evs :
  created_tasks (debug_events entry w ++ evs) = created_tasks evs.
Proof. unfold debug_events. by destruct (_ && _). Qed.

Lemma filter_debug_events (f : Event → bool) entry w evs :
  f EvSetupDebug = false →
  List.filter f (debug_events entry w ++ evs) = List.filter f evs.
Proof.
  intros Hf. unfold debug_events. destruct (_ && _); [|done].
  simpl. by rewrite Hf.
Qed.

Lemma existsb_debug_events (f : Event → bool) entry w evs :
  f EvSetupDebug = false →
  existsb f (debug_events entry w ++ evs) = existsb f evs.
Proof.
  intros Hf. unfold debug_events. destruct (_ && _); [|done].
  simpl. by rewrite Hf.
Qed.

(** Unfolds the coroutines down to functions of the world. *)
Ltac unfold_m :=
  unfold async_setup_entry, first_login, internal_normal_setup,
    internal_cache_setup, populate_devices, setup_devices, cloud_login,
    cloud_get_devices, cloud_start, local_start, registry_cloud_auth,
    store_async_save, store_async_load, update_registry, hass_data_index,
    data_index_username, when, assert_, try_, raise, gets, async_create_task,
    emit, set_registries, set_UNIQUE_DEVICES, set_store, mbind, M_bind, mret,
    M_ret in *.

Ltac red_m :=
  cbn -[get_mode internal_unique_devices merge_devices data_get data_set
        truthy mode_in String.eqb] in *.

(** Feeds a stuck [match] with what the context knows of its scrutinee. *)
Ltac use_known :=
  match goal with
  | H : ?x = _ |- context [match ?x with _ => _ end] => rewrite H
  | H : get_mode ?e = _ |- context [get_mode ?e] => rewrite H
  | H : truthy ?a = _ |- context [truthy ?a] => rewrite H
  | H : cloud_auth ?r = _ |- context [cloud_auth ?r] => rewrite H
  | |- context [data_get ?k (data_set ?k _ _)] => rewrite data_get_set_eq
  end.

(** Splits on the scrutinee of an innermost stuck [match]. *)
Ltac split_one :=
  match goal with
  | |- context [match ?x with _ => _ end] =>
      lazymatch x with
      | context [match _ with _ => _ end] => fail
      | _ => let E := fresh "E" in destruct x eqn:E
      end
  end.

Ltac exec :=
  unfold_m; red_m;
  repeat (first [ use_known | split_one ]; red_m; try discriminate).

Ltac finish := rewrite <- ?app_assoc; try reflexivity; try congruence.

Section SetupEntry.

Variables (env : Env) (entry : ConfigEntry) (w : World).

Local Abbreviation eid := (entry_id entry).
Local Abbreviation mode := (get_mode entry).
Local Abbreviation login :=
  (EvLogin (entry_id entry) (data_username entry) (data_password entry)).

(** A first attempt whose login raises [e]. *)
Lemma first_attempt_login_fails e :
  state entry ≠ SETUP_RETRY →
  registry_auth eid w = None →
  truthy (data_username entry) = true →
  truthy (data_password entry) = true →
  login_outcome env = LoginRaises e →
  async_setup_entry env entry w =
    (if mode_in mode ["auto"; "cloud"] then
       inl (if is_AuthError e then ConfigEntryAuthFailed e
            else ConfigEntryNotReady e)
     else if String.eqb mode "local" then inr true
     else inl AssertionError,
     after_prelude entry w
       ([login; EvWarning (CantLogin e mode)] ++
        if mode_in mode ["auto"; "local"]
        then [EvCreateTask (TaskCacheSetup entry)] else [])).
Proof.
  intros Hst Hauth Hu Hp Hlog.
  unfold registry_auth, after_prelude, ensure_registry, debug_events in *.
  apply (bool_decide_eq_false_2 _) in Hst.
  exec; finish.
Qed.

(** A first attempt whose login succeeds. *)
Lemma first_attempt_login_succeeds a :
  state entry ≠ SETUP_RETRY →
  registry_auth eid w = None →
  truthy (data_username entry) = true →
  truthy (data_password entry) = true →
  login_outcome env = LoginSuccess a →
  async_setup_entry env entry w =
    (inr true,
     {| registries :=
          data_set eid {| cloud_auth := Some a; devices := registry_devices eid w |}
            (ensure_registry eid (registries w));
        UNIQUE_DEVICES := UNIQUE_DEVICES w; store := store w;
        logger_handlers := logger_handlers w;
        trace := trace w ++ debug_events entry w ++
                 [login; EvCreateTask (TaskNormalSetup entry)] |}).
Proof.
  intros Hst Hauth Hu Hp Hlog.
  unfold registry_auth, registry_devices, ensure_registry, debug_events in *.
  apply (bool_decide_eq_false_2 _) in Hst.
  exec; finish.
Qed.

(** A first attempt that makes no login: the account holds an
    authentication already, or a credential is missing. *)
Lemma first_attempt_without_login :
  state entry ≠ SETUP_RETRY →
  bool_decide (registry_auth eid w = None) && truthy (data_username entry)
    && truthy (data_password entry) = false →
  async_setup_entry env entry w =
    (inr true, after_prelude entry w [EvCreateTask (TaskNormalSetup entry)]).
Proof.
  intros Hst Hskip.
  unfold registry_auth, after_prelude, ensure_registry, debug_events in *.
  apply (bool_decide_eq_false_2 _) in Hst.
  exec; finish.
Qed.

(** A retry whose login raises [e]. *)
Lemma retry_login_fails e :
  state entry = SETUP_RETRY →
  mode_in mode ["auto"; "cloud"] = true →
  login_outcome env = LoginRaises e →
  async_setup_entry env entry w =
    (inl (ConfigEntryNotReady e),
     after_prelude entry w [login; EvWarning (CantLoginRetry e mode)]).
Proof.
  intros Hst Hmode Hlog.
  unfold after_prelude, ensure_registry, debug_events in *.
  apply (bool_decide_eq_true_2 _) in Hst.
  exec; finish.
Qed.

(** A retry whose login succeeds. *)
Lemma retry_login_succeeds a :
  state entry = SETUP_RETRY →
  mode_in mode ["auto"; "cloud"] = true →
  login_outcome env = LoginSuccess a →
  async_setup_entry env entry w =
    (inr true,
     {| registries :=
          data_set eid {| cloud_auth := Some a; devices := registry_devices eid w |}
            (ensure_registry eid (registries w));
        UNIQUE_DEVICES := UNIQUE_DEVICES w; store := store w;
        logger_handlers := logger_handlers w;
        trace := trace w ++ debug_events entry w ++ [login] ++
                 if String.eqb mode "auto" then [EvCloudStart eid]
                 else if String.eqb mode "cloud"
                      then [EvCreateTask (TaskNormalSetup entry)] else [] |}).
Proof.
  intros Hst Hmode Hlog.
  unfold registry_devices, ensure_registry, debug_events in *.
  apply (bool_decide_eq_true_2 _) in Hst.
  exec; finish.
Qed.

(** The retry branch asserts a mode that uses the cloud. *)
Lemma retry_asserts_cloud_mode :
  state entry = SETUP_RETRY →
  mode_in mode ["auto"; "cloud"] = false →
  async_setup_entry env entry w = (inl AssertionError, after_prelude entry w []).
Proof.
  intros Hst Hmode.
  unfold after_prelude, ensure_registry, debug_events in *.
  apply (bool_decide_eq_true_2 _) in Hst.
  exec; rewrite ?app_nil_r; finish; by destruct w.
Qed.

(** On a first attempt a login is made exactly when the account holds no
    authentication and both credentials are configured. *)
Lemma first_attempt_login_iff :
  state entry ≠ SETUP_RETRY →
  existsb is_login (new_events w (async_setup_entry env entry w).2) =
    bool_decide (registry_auth eid w = None) && truthy (data_username entry)
      && truthy (data_password entry).
Proof.
  intros Hst.
  destruct (bool_decide (registry_auth eid w = None) &&
            truthy (data_username entry) && truthy (data_password entry)) eqn:E.
  - apply andb_prop in E as [[Ha%bool_decide_eq_true_1 Hu]%andb_prop Hp].
    destruct (login_outcome env) as [a|e] eqn:Hlog.
    + rewrite (first_attempt_login_succeeds a) by done. cbn [snd].
      by rewrite new_events_app, existsb_debug_events.
    + rewrite (first_attempt_login_fails e) by done. cbn [snd].
      by rewrite new_events_after_prelude, existsb_debug_events.
  - rewrite first_attempt_without_login by done. cbn [snd].
    by rewrite new_events_after_prelude, existsb_debug_events.
Qed.

End SetupEntry.

Section Bootstrap.

Variables (env : Env) (entry : ConfigEntry).

Local Abbreviation eid := (entry_id entry).

Lemma data_get_ensure_registry rs :
  data_get eid (ensure_registry eid rs) =
    Some (default new_XRegistry (data_get eid rs)).
Proof.
  unfold ensure_registry. destruct (data_get eid rs) eqn:E; [done|].
  apply data_get_set_eq.
Qed.

Lemma registry_auth_after_prelude w evs :
  registry_auth eid (after_prelude entry w evs) = registry_auth eid w.
Proof.
  unfold registry_auth, after_prelude. cbn [registries].
  rewrite data_get_ensure_registry. by destruct (data_get eid (registries w)).
Qed.

(** Whatever a bootstrap task does, it appends to the trace; it creates no
    task and makes no login.  It calls [cloud.start] only in a mode other
    than [local] and with an authentication held, and [local.start] only
    in a mode other than [cloud]. *)
Lemma internal_cache_setup_events devs w :
  ∃ evs, trace (internal_cache_setup entry devs w).2 = trace w ++ evs ∧
    created_tasks evs = [] ∧ List.filter is_login evs = [] ∧
    (registry_auth eid w = None ∨ get_mode entry = "local" →
     List.filter is_cloud_start evs = []) ∧
    (get_mode entry = "cloud" → List.filter is_local_start evs = []).
Proof.
  unfold registry_auth.
  exec.
  all: eexists; (split; [rewrite <- ?app_assoc; reflexivity|]).
  all: cbn; repeat split; try done.
  all: try (intros [H|H]; rewrite H in *; cbn in *;
            rewrite ?andb_false_r in *; done).
  all: try (intros H; rewrite H in *; cbn in *; done).
Qed.

Lemma internal_normal_setup_events w :
  ∃ evs, trace (internal_normal_setup env entry w).2 = trace w ++ evs ∧
    created_tasks evs = [] ∧ List.filter is_login evs = [] ∧
    (registry_auth eid w = None ∨ get_mode entry = "local" →
     List.filter is_cloud_start evs = []) ∧
    (get_mode entry = "cloud" → List.filter is_local_start evs = []).
Proof.
  unfold registry_auth.
  exec.
  all: first [ eexists; (split; [rewrite <- ?app_assoc; reflexivity|])
             | exists []; split; [by rewrite app_nil_r|] ].
  all: cbn; repeat split; try done.
  all: try (intros [H|H]; rewrite H in *; cbn in *;
            rewrite ?andb_false_r in *; done).
  all: try (intros H; rewrite H in *; cbn in *; done).
Qed.

(** With its registry stored and a username in the entry data, a
    bootstrap task runs to its end; unless the mode is [cloud] it has
    started the local transport by then. *)
Lemma run_task_completes t w :
  t = TaskNormalSetup entry ∨ t = TaskCacheSetup entry →
  is_Some (data_get eid (registries w)) →
  is_Some (data_username entry) →
  (run_task env t w).1 = inr tt ∧
  (get_mode entry ≠ "cloud" →
   In (EvLocalStart eid) (new_events w (run_task env t w).2)).
Proof.
  intros Ht [r Hr] [u Hu]. unfold new_events.
  destruct Ht as [-> | ->]; unfold run_task.
  all: exec.
  all: split; [done|]; intros Hm; rewrite <- ?app_assoc, drop_app_length; cbn.
  all: try (repeat (first [by left | right])).
  all: match goal with
       | E : negb (_ =? _) = false |- _ =>
           apply negb_false_iff, String.eqb_eq in E; done
       end.
Qed.

(** Holding an authentication, with a username in the entry data and in
    mode [cloud], the normal bootstrap enumerates the devices of the
    cloud, saves them, populates the registry when there are any and
    starts the cloud transport; it neither loads the cache nor starts the
    local transport. *)
Lemma internal_normal_setup_cloud w r a u :
  data_get eid (registries w) = Some r →
  cloud_auth r = Some a →
  data_username entry = Some u →
  get_mode entry = "cloud" →
  let devs := cloud_devices env in
  let run := internal_normal_setup env entry w in
  run.1 = inr tt ∧
  trace run.2 = trace w ++
    [EvGetDevices eid; EvDebug (LoadedFromCloud (length devs));
     EvStoreSave (store_key u) devs; EvForwardEntrySetup eid PLATFORMS] ++
    (match devs with
     | [] => []
     | _ => [EvSetupDevices eid
               (internal_unique_devices eid devs (UNIQUE_DEVICES w)).1]
     end) ++
    [EvCloudStart eid; EvDebug (ModeStart "cloud")] ++
    (if update_listeners entry then [] else [EvAddUpdateListener eid]) ++
    [EvOnUnload eid].
Proof.
  intros Hr Ha Hu Hm devs run. subst devs run.
  exec.
  all: split; [done|]; rewrite <- ?app_assoc; cbn.
  all: reflexivity.
Qed.

(** Without an authentication the normal bootstrap is the cache
    bootstrap: the devices come from the store. *)
Lemma internal_normal_setup_without_auth w :
  is_Some (data_get eid (registries w)) →
  registry_auth eid w = None →
  internal_normal_setup env entry w = internal_cache_setup entry None w.
Proof.
  unfold registry_auth. intros [r Hr] Ha. rewrite Hr in Ha.
  unfold internal_normal_setup, registry_cloud_auth, hass_data_index, gets,
    mbind, M_bind, mret, M_ret. cbn. rewrite Hr. cbn. rewrite Ha. cbn.
  by destruct (internal_cache_setup entry None w) as [[?|[]] ?].
Qed.

End Bootstrap.

(* ===================================================================== *)
(** ** The set-up orchestration: login failures *)
(* ===================================================================== *)

(** On a first attempt, invalid credentials in a mode that uses the cloud
    end the invocation with [ConfigEntryAuthFailed]. *)
Lemma first_attempt_invalid_credentials_fatal env entry w msg :
  state entry ≠ SETUP_RETRY →
  registry_auth (entry_id entry) w = None →
  truthy (data_username entry) = true →
  truthy (data_password entry) = true →
  mode_in (get_mode entry) ["auto"; "cloud"] = true →
  login_outcome env = LoginRaises (AuthError msg) →
  (async_setup_entry env entry w).1 = inl (ConfigEntryAuthFailed (AuthError msg)).
Proof.
  intros Hst Ha Hu Hp Hm Hlog.
  rewrite (first_attempt_login_fails env entry w (AuthError msg)) by done.
  by rewrite Hm.
Qed.

(** C1.  In the retry state, mode [auto] or [cloud], a login that fails
    with [AuthError] leaves [async_setup_entry] through
    [ConfigEntryNotReady], the retryable failure, where the claim asks for
    the fatal [ConfigEntryAuthFailed]. *)
Theorem retry_invalid_credentials_surface_retryable :
  let env := {| login_outcome := LoginRaises (AuthError "wrong password");
                cloud_devices := [] |} in
  let w := {| registries := [("acct", new_XRegistry)]; UNIQUE_DEVICES := ∅;
              store := ∅; logger_handlers := false; trace := [] |} in
  let entry mode :=
    {| entry_id := "acct"; state := SETUP_RETRY;
       data_username := Some "user@example.com"; data_password := Some "secret";
       options_mode := mode; options_debug := false;
       update_listeners := false |} in
  (async_setup_entry env (entry (Some "auto")) w).1
    = inl (ConfigEntryNotReady (AuthError "wrong password")) ∧
  (async_setup_entry env (entry (Some "cloud")) w).1
    = inl (ConfigEntryNotReady (AuthError "wrong password")) ∧
  (async_setup_entry env (entry None) w).1
    = inl (ConfigEntryNotReady (AuthError "wrong password")).
Proof. repeat split; reflexivity. Qed.


(** The trace of a set-up cycle: the events of the invocation, then
    those of the task it created. *)
Lemma new_events_after_task entry w evs1 w2 evs2 :
  trace w2 = trace (after_prelude entry w evs1) ++ evs2 →
  new_events w w2 = debug_events entry w ++ evs1 ++ evs2.
Proof.
  unfold new_events, after_prelude. cbn [trace]. intros ->.
  by rewrite <- !app_assoc, drop_app_length.
Qed.

Lemma created_tasks_app evs1 evs2 :
  created_tasks (evs1 ++ evs2) = created_tasks evs1 ++ created_tasks evs2.
Proof. apply omap_app. Qed.

(** C3.  Mode [auto], a first attempt whose login is made and fails with
    [AuthError]: over the invocation and the tasks it leaves to the loop,
    the cache bootstrap is the one task created, [cloud.start] is never
    called, and the invocation ends with [ConfigEntryAuthFailed]. *)
Theorem auto_invalid_credentials_one_bootstrap_no_cloud_start
    (env : Env) (entry : ConfigEntry) (w : World) (msg : string) :
  state entry ≠ SETUP_RETRY →
  get_mode entry = "auto" →
  login_outcome env = LoginRaises (AuthError msg) →
  existsb is_login (new_events w (async_setup_entry env entry w).2) = true →
  let cycle := setup_cycle env entry w in
  cycle.1 = inl (ConfigEntryAuthFailed (AuthError msg)) ∧
  created_tasks (new_events w cycle.2) = [TaskCacheSetup entry] ∧
  List.filter is_cloud_start (new_events w cycle.2) = [].
Proof.
  intros Hst Hm Hlog Hatt cycle. subst cycle.
  rewrite first_attempt_login_iff in Hatt by done.
  apply andb_prop in Hatt as [[Ha%bool_decide_eq_true_1 Hu]%andb_prop Hp].
  unfold setup_cycle.
  rewrite (first_attempt_login_fails env entry w (AuthError msg)) by done.
  rewrite Hm. cbn [mode_in existsb String.eqb Ascii.eqb Bool.eqb orb is_AuthError app].
  rewrite new_events_after_prelude, created_tasks_debug_events.
  cbn [created_tasks omap list_omap run_tasks foldl run_task fst snd].
  match goal with
  | |- context [internal_cache_setup entry None ?w1] =>
      destruct (internal_cache_setup_events entry None w1)
        as (evs & Htr & Hct & _ & Hcs & _)
  end.
  rewrite registry_auth_after_prelude in Hcs.
  rewrite (new_events_after_task _ _ _ _ _ Htr).
  split; [done|]. split.
  - rewrite created_tasks_debug_events, created_tasks_app, Hct. done.
  - rewrite filter_debug_events by done.
    rewrite List.filter_app, Hcs by auto. done.
Qed.

Lemma auto_invalid_credentials_one_bootstrap_no_cloud_start_witness :
  let env := {| login_outcome := LoginRaises (AuthError "wrong password");
                cloud_devices := [] |} in
  let entry := {| entry_id := "acct"; state := NOT_LOADED;
                  data_username := Some "user@example.com";
                  data_password := Some "secret"; options_mode := None;
                  options_debug := true; update_listeners := false |} in
  let w := {| registries := []; UNIQUE_DEVICES := ∅;
              store := {[ store_key "user@example.com" :=
                            [mkDevice "1000abcd12" []] ]};
              logger_handlers := false; trace := [] |} in
  let cycle := setup_cycle env entry w in
  cycle.1 = inl (ConfigEntryAuthFailed (AuthError "wrong password")) ∧
  created_tasks (new_events w cycle.2) = [TaskCacheSetup entry] ∧
  List.filter is_cloud_start (new_events w cycle.2) = [].
Proof.
  intros env entry w.
  apply (auto_invalid_credentials_one_bootstrap_no_cloud_start
           env entry w "wrong password").
  - discriminate.
  - reflexivity.
  - reflexivity.
  - vm_compute. reflexivity.
Defined.

(** C6.  Mode [cloud], a login that is made and fails with something
    other than [AuthError], on a first attempt or on a retry: the
    invocation ends with the retryable [ConfigEntryNotReady], it creates
    no task, and so nothing of a bootstrap runs in the cycle. *)
Theorem cloud_transient_failure_retryable_no_bootstrap
    (env : Env) (entry : ConfigEntry) (w : World) (e : Exn) :
  get_mode entry = "cloud" →
  login_outcome env = LoginRaises e →
  is_AuthError e = false →
  existsb is_login (new_events w (async_setup_entry env entry w).2) = true →
  let cycle := setup_cycle env entry w in
  cycle.1 = inl (ConfigEntryNotReady e) ∧
  created_tasks (new_events w cycle.2) = [] ∧
  cycle.2 = (async_setup_entry env entry w).2.
Proof.
  intros Hm Hlog He Hatt cycle. subst cycle. unfold setup_cycle.
  destruct (decide (state entry = SETUP_RETRY)) as [Hst|Hst].
  - rewrite (retry_login_fails env entry w e) by (by rewrite ?Hm).
    rewrite new_events_after_prelude, created_tasks_debug_events.
    cbn [created_tasks omap list_omap run_tasks foldl fst snd].
    by rewrite new_events_after_prelude, created_tasks_debug_events.
  - rewrite first_attempt_login_iff in Hatt by done.
    apply andb_prop in Hatt as [[Ha%bool_decide_eq_true_1 Hu]%andb_prop Hp].
    rewrite (first_attempt_login_fails env entry w e) by done.
    rewrite Hm, He. cbn [mode_in existsb String.eqb Ascii.eqb Bool.eqb orb app].
    rewrite new_events_after_prelude, created_tasks_debug_events.
    cbn [created_tasks omap list_omap run_tasks foldl fst snd].
    by rewrite new_events_after_prelude, created_tasks_debug_events.
Qed.

Lemma cloud_transient_failure_retryable_no_bootstrap_witness :
  let env := {| login_outcome := LoginRaises (OtherError "timeout");
                cloud_devices := [] |} in
  let entry := {| entry_id := "acct"; state := NOT_LOADED;
                  data_username := Some "user@example.com";
                  data_password := Some "secret";
                  options_mode := Some "cloud";
                  options_debug := false; update_listeners := false |} in
  let w := {| registries := []; UNIQUE_DEVICES := ∅; store := ∅;
              logger_handlers := false; trace := [] |} in
  let cycle := setup_cycle env entry w in
  cycle.1 = inl (ConfigEntryNotReady (OtherError "timeout")) ∧
  created_tasks (new_events w cycle.2) = [] ∧
  cycle.2 = (async_setup_entry env entry w).2.
Proof.
  intros env entry w.
  apply (cloud_transient_failure_retryable_no_bootstrap
           env entry w (OtherError "timeout")).
  - reflexivity.
  - reflexivity.
  - reflexivity.
  - vm_compute. reflexivity.
Defined.

(** C7.  A retry whose login succeeds.  In mode [auto] the cycle consists
    of the login and [cloud.start]: no task is created, so no bootstrap
    runs again.  In mode [cloud] the invocation creates the normal
    bootstrap as a task, and that task enumerates the devices of the
    cloud, saves them to the cache, populates the registry with the
    devices that pass the filter (when the cloud reported any) and starts
    the cloud transport; it neither loads the cache nor starts the local
    transport. *)
Theorem retry_success_cloud_start_or_full_bootstrap
    (env : Env) (entry : ConfigEntry) (w : World) (a u : string) :
  state entry = SETUP_RETRY →
  login_outcome env = LoginSuccess a →
  data_username entry = Some u →
  let eid := entry_id entry in
  let login := EvLogin eid (data_username entry) (data_password entry) in
  let devs := cloud_devices env in
  let cycle := setup_cycle env entry w in
  (get_mode entry = "auto" →
   cycle.1 = inr true ∧
   new_events w cycle.2 = debug_events entry w ++ [login; EvCloudStart eid]) ∧
  (get_mode entry = "cloud" →
   cycle.1 = inr true ∧
   new_events w cycle.2 =
     debug_events entry w ++
     [login; EvCreateTask (TaskNormalSetup entry);
      EvGetDevices eid; EvDebug (LoadedFromCloud (length devs));
      EvStoreSave (store_key u) devs; EvForwardEntrySetup eid PLATFORMS] ++
     (match devs with
      | [] => []
      | _ => [EvSetupDevices eid
                (internal_unique_devices eid devs (UNIQUE_DEVICES w)).1]
      end) ++
     [EvCloudStart eid; EvDebug (ModeStart "cloud")] ++
     (if update_listeners entry then [] else [EvAddUpdateListener eid]) ++
     [EvOnUnload eid]).
Proof.
  intros Hst Hlog Hu eid login devs cycle. subst eid login devs cycle.
  unfold setup_cycle. split; intros Hm.
  - rewrite (retry_login_succeeds env entry w a) by (by rewrite ?Hm).
    rewrite Hm. cbn [String.eqb Ascii.eqb Bool.eqb app].
    rewrite new_events_app, created_tasks_debug_events.
    cbn [created_tasks omap list_omap run_tasks foldl fst snd].
    by rewrite new_events_app.
  - rewrite (retry_login_succeeds env entry w a) by (by rewrite ?Hm).
    rewrite Hm. cbn [String.eqb Ascii.eqb Bool.eqb app].
    rewrite new_events_app, created_tasks_debug_events.
    cbn [created_tasks omap list_omap run_tasks foldl run_task fst snd].
    split; [done|].
    match goal with
    | |- context [internal_normal_setup env entry ?w1] =>
        destruct (internal_normal_setup_cloud env entry w1
                    {| cloud_auth := Some a;
                       devices := registry_devices (entry_id entry) w |} a u)
          as [_ Htr]
    end; [apply data_get_set_eq | done | done | done |].
    unfold new_events. rewrite Htr. cbn [trace UNIQUE_DEVICES].
    by rewrite <- !app_assoc, drop_app_length.
Qed.

Lemma retry_success_cloud_start_or_full_bootstrap_witness :
  let env := {| login_outcome := LoginSuccess "token";
                cloud_devices := [mkDevice "1000abcd12" []] |} in
  let entry mode :=
    {| entry_id := "acct"; state := SETUP_RETRY;
       data_username := Some "user@example.com"; data_password := Some "secret";
       options_mode := Some mode; options_debug := false;
       update_listeners := false |} in
  let w := {| registries := [("acct", new_XRegistry)]; UNIQUE_DEVICES := ∅;
              store := ∅; logger_handlers := false; trace := [] |} in
  (setup_cycle env (entry "auto") w).1 = inr true ∧
  (setup_cycle env (entry "cloud") w).1 = inr true.
Proof.
  intros env entry w. split.
  - apply (proj1 (retry_success_cloud_start_or_full_bootstrap
                    env (entry "auto") w "token" "user@example.com"
                    eq_refl eq_refl eq_refl)).
    reflexivity.
  - apply (proj2 (retry_success_cloud_start_or_full_bootstrap
                    env (entry "cloud") w "token" "user@example.com"
                    eq_refl eq_refl eq_refl)).
    reflexivity.
Defined.

(** C8.  Mode [local], no password configured, a first attempt: the
    invocation returns [True] and creates the normal bootstrap; that task
    runs to its end and starts the local transport; nowhere in the cycle
    is a login made, and [cloud.start] is not called. *)
Theorem local_without_password_completes
    (env : Env) (entry : ConfigEntry) (w : World) (u : string) :
  state entry ≠ SETUP_RETRY →
  get_mode entry = "local" →
  truthy (data_password entry) = false →
  data_username entry = Some u →
  let run := async_setup_entry env entry w in
  let cycle := setup_cycle env entry w in
  run.1 = inr true ∧ cycle.1 = inr true ∧
  created_tasks (new_events w run.2) = [TaskNormalSetup entry] ∧
  (run_task env (TaskNormalSetup entry) run.2).1 = inr tt ∧
  List.filter is_login (new_events w cycle.2) = [] ∧
  In (EvLocalStart (entry_id entry)) (new_events w cycle.2) ∧
  List.filter is_cloud_start (new_events w cycle.2) = [].
Proof.
  intros Hst Hm Hp Hu run cycle. subst run cycle. unfold setup_cycle.
  rewrite first_attempt_without_login by (by rewrite ?Hp, ?andb_false_r).
  rewrite new_events_after_prelude, created_tasks_debug_events.
  cbn [created_tasks omap list_omap run_tasks foldl fst snd].
  set (w1 := after_prelude entry w [EvCreateTask (TaskNormalSetup entry)]).
  destruct (run_task_completes env entry (TaskNormalSetup entry) w1)
    as [Hok Hlocal].
  { by left. }
  { unfold w1, after_prelude. cbn [registries].
    by rewrite data_get_ensure_registry. }
  { by rewrite Hu. }
  destruct (internal_normal_setup_events env entry w1)
    as (evs & Htr & Hct & Hlg & Hcs & _).
  cbn [run_task] in *.
  assert (Hev : new_events w1 (internal_normal_setup env entry w1).2 = evs).
  { unfold new_events. by rewrite Htr, drop_app_length. }
  rewrite Hev in Hlocal.
  rewrite (new_events_after_task _ _ _ _ _ Htr).
  split; [done|]. split; [done|]. split.
  { unfold w1. by rewrite new_events_after_prelude, created_tasks_debug_events. }
  split; [done|]. split.
  { rewrite filter_debug_events by done. cbn [app List.filter is_login].
    done. }
  split.
  { apply in_or_app. right. apply in_or_app. right.
    apply Hlocal. by rewrite Hm. }
  rewrite filter_debug_events by done. cbn [app List.filter is_cloud_start].
  apply Hcs. by right.
Qed.

Lemma local_without_password_completes_witness :
  let env := {| login_outcome := LoginRaises (OtherError "unreachable");
                cloud_devices := [] |} in
  let entry := {| entry_id := "acct"; state := NOT_LOADED;
                  data_username := Some "user@example.com";
                  data_password := None; options_mode := Some "local";
                  options_debug := false; update_listeners := false |} in
  let w := {| registries := []; UNIQUE_DEVICES := ∅; store := ∅;
              logger_handlers := false; trace := [] |} in
  (setup_cycle env entry w).1 = inr true ∧
  In (EvLocalStart "acct") (new_events w (setup_cycle env entry w).2).
Proof.
  intros env entry w.
  destruct (local_without_password_completes env entry w "user@example.com")
    as (_ & Hok & _ & _ & _ & Hlocal & _).
  - discriminate.
  - reflexivity.
  - reflexivity.
  - reflexivity.
  - split; [exact Hok | exact Hlocal].
Defined.

(** C10.  A first attempt for an account that holds no authentication
    and lacks the username or the password: whatever the mode, the
    invocation returns [True] and creates the normal bootstrap as its one
    task; that bootstrap is then the cache bootstrap, with the devices
    read from the store; no login is made, by the invocation or by the
    task. *)
Theorem missing_credentials_skip_login
    (env : Env) (entry : ConfigEntry) (w : World) :
  state entry ≠ SETUP_RETRY →
  registry_auth (entry_id entry) w = None →
  truthy (data_username entry) && truthy (data_password entry) = false →
  let run := async_setup_entry env entry w in
  let cycle := setup_cycle env entry w in
  run.1 = inr true ∧
  created_tasks (new_events w run.2) = [TaskNormalSetup entry] ∧
  run_task env (TaskNormalSetup entry) run.2
    = internal_cache_setup entry None run.2 ∧
  List.filter is_login (new_events w run.2) = [] ∧
  List.filter is_login (new_events w cycle.2) = [].
Proof.
  intros Hst Ha Hc run cycle. subst run cycle. unfold setup_cycle.
  rewrite first_attempt_without_login;
    [|done|by rewrite <- andb_assoc, Hc, andb_false_r].
  rewrite new_events_after_prelude, created_tasks_debug_events.
  cbn [created_tasks omap list_omap run_tasks foldl run_task fst snd].
  set (w1 := after_prelude entry w [EvCreateTask (TaskNormalSetup entry)]).
  destruct (internal_normal_setup_events env entry w1)
    as (evs & Htr & _ & Hlg & _).
  rewrite (new_events_after_task _ _ _ _ _ Htr).
  assert (Hnew : new_events w w1
                 = debug_events entry w ++ [EvCreateTask (TaskNormalSetup entry)])
    by apply new_events_after_prelude.
  rewrite Hnew.
  split; [done|]. split; [by rewrite created_tasks_debug_events|]. split.
  { apply internal_normal_setup_without_auth.
    - unfold w1, after_prelude. cbn [registries].
      by rewrite data_get_ensure_registry.
    - unfold w1. by rewrite registry_auth_after_prelude. }
  split.
  - by rewrite filter_debug_events.
  - rewrite filter_debug_events by done. cbn [app List.filter is_login].
    done.
Qed.

Lemma missing_credentials_skip_login_witness :
  let env := {| login_outcome := LoginSuccess "token"; cloud_devices := [] |} in
  let entry := {| entry_id := "acct"; state := NOT_LOADED;
                  data_username := Some "user@example.com";
                  data_password := None; options_mode := Some "cloud";
                  options_debug := false; update_listeners := false |} in
  let w := {| registries := []; UNIQUE_DEVICES := ∅; store := ∅;
              logger_handlers := false; trace := [] |} in
  (async_setup_entry env entry w).1 = inr true ∧
  List.filter is_login (new_events w (setup_cycle env entry w).2) = [].
Proof.
  intros env entry w.
  destruct (missing_credentials_skip_login env entry w)
    as (Hok & _ & _ & _ & Hlg).
  - discriminate.
  - reflexivity.
  - reflexivity.
  - split; [exact Hok | exact Hlg].
Defined.

(* ===================================================================== *)
(** ** The [send_command] service *)
(* ===================================================================== *)

Lemma find_holds_device_none id (rs : list (string * XRegistry)) :
  (∀ p, p ∈ rs → devices p.2 !! id = None) →
  find (holds_device id) rs = None.
Proof.
  induction rs as [|p rs IH]; intros Hnone; [done|].
  simpl. unfold holds_device at 1.
  rewrite (Hnone p) by apply list_elem_of_here.
  rewrite bool_decide_eq_false_2 by (by intros [? ?]).
  apply IH. intros q Hq. apply Hnone. by apply list_elem_of_further.
Qed.

(** A device id of length 10 that no registry holds: [next] finds
    nothing, the coroutine ends with an exception, and the world is left
    as it was: nothing is logged and no transport is called. *)
Lemma send_command_unknown_device call id w :
  call_device call = Some id →
  String.length id = 10 →
  (∀ p, p ∈ registries w → devices p.2 !! id = None) →
  send_command call w
    = (inl (RuntimeError "coroutine raised StopIteration"), w).
Proof.
  intros Hid Hlen Hnone.
  unfold send_command, coroutine, send_command_body, gets, raise,
    mbind, M_bind, mret, M_ret.
  rewrite Hid. cbn. rewrite Hlen. cbn.
  by rewrite (find_holds_device_none id _ Hnone).
Qed.

(** A device id of a length other than 10 and 6 is logged as an error;
    the coroutine returns. *)
Lemma send_command_wrong_length call id w :
  call_device call = Some id →
  String.length id ≠ 10 →
  String.length id ≠ 6 →
  send_command call w
    = (inr tt,
       {| registries := registries w; UNIQUE_DEVICES := UNIQUE_DEVICES w;
          store := store w; logger_handlers := logger_handlers w;
          trace := trace w ++ [EvError (WrongDeviceid id)] |}).
Proof.
  intros Hid H10 H6.
  unfold send_command, coroutine, send_command_body, gets, raise, emit,
    mbind, M_bind, mret, M_ret.
  rewrite Hid. cbn.
  destruct (Nat.eqb_spec (String.length id) 10); [done|].
  destruct (Nat.eqb_spec (String.length id) 6); [done|].
  done.
Qed.

(** C2.  The device id ["1000abcd12"] has length 10 and is in the device
    map of no registry: [send_command] raises (the [StopIteration] of
    [next], which leaves the coroutine as a [RuntimeError]) where the
    claim asks for an error that is logged and not raised; the trace is
    left untouched, so nothing is logged and no transport is called. *)
Theorem send_command_unknown_device_raises :
  let w := {| registries :=
                [("acct", {| cloud_auth := Some "token";
                             devices := {[ "1000abcd99" :=
                                             mkDevice "1000abcd99" [] ]} |})];
              UNIQUE_DEVICES := {[ "1000abcd99" := "acct" ]}; store := ∅;
              logger_handlers := false; trace := [] |} in
  let call := {| call_device := Some "1000abcd12";
                 call_data := [("switch", "on")] |} in
  (send_command call w).1
    = inl (RuntimeError "coroutine raised StopIteration") ∧
  (send_command call w).2 = w ∧
  List.filter is_log (trace (send_command call w).2) = [] ∧
  List.filter is_transport_call (trace (send_command call w).2) = [].
Proof. repeat split; vm_compute; reflexivity. Qed.

(* ===================================================================== *)
(** ** When the host is asked to retry *)
(* ===================================================================== *)

(** [async_setup_entry] raises [ConfigEntryNotReady], which is what puts
    an entry in the retry state, only in a mode that uses the cloud and
    after a login it has made; the first attempts of the theorems above
    therefore cover every entry that was never asked to be retried. *)
Lemma not_ready_only_after_login env entry w e :
  (async_setup_entry env entry w).1 = inl (ConfigEntryNotReady e) →
  mode_in (get_mode entry) ["auto"; "cloud"] = true ∧
  existsb is_login (new_events w (async_setup_entry env entry w).2) = true.
Proof.
  destruct (decide (state entry = SETUP_RETRY)) as [Hst|Hst].
  - destruct (mode_in (get_mode entry) ["auto"; "cloud"]) eqn:Hm.
    + destruct (login_outcome env) as [a|e'] eqn:Hlog.
      * by rewrite (retry_login_succeeds env entry w a).
      * rewrite (retry_login_fails env entry w e') by done. cbn [fst snd].
        intros _. split; [done|].
        by rewrite new_events_after_prelude, existsb_debug_events.
    + by rewrite retry_asserts_cloud_mode.
  - rewrite first_attempt_login_iff by done.
    destruct (bool_decide (registry_auth (entry_id entry) w = None) &&
              truthy (data_username entry) && truthy (data_password entry))
      eqn:Hc.
    + apply andb_prop in Hc as [[Ha%bool_decide_eq_true_1 Hu]%andb_prop Hp].
      destruct (login_outcome env) as [a|e'] eqn:Hlog.
      * by rewrite (first_attempt_login_succeeds env entry w a).
      * rewrite (first_attempt_login_fails env entry w e') by done.
        cbn [fst]. destruct (mode_in (get_mode entry) ["auto"; "cloud"]).
        -- done.
        -- by destruct (get_mode entry =? "local").
    + by rewrite first_attempt_without_login.
Qed.

(** Retries whose logins all fail, in a mode that uses the cloud, add
    logins and warnings to the trace and nothing else: no bootstrap is
    created and [cloud.start] is not called. *)
Lemma retry_cycles_failed_logins envs entry w :
  mode_in (get_mode entry) ["auto"; "cloud"] = true →
  Forall (λ env, ∃ e, login_outcome env = LoginRaises e) envs →
  ∃ evs, trace (retry_cycles envs entry w) = trace w ++ evs ∧
    created_tasks evs = [] ∧ List.filter is_cloud_start evs = [].
Proof.
  intros Hm Hall. revert w.
  induction Hall as [|env envs [e He] _ IH]; intros w.
  - exists []. by rewrite app_nil_r.
  - cbn [retry_cycles]. unfold setup_cycle.
    rewrite (retry_login_fails env (in_retry entry) w e) by done.
    rewrite new_events_after_prelude, created_tasks_debug_events.
    cbn [created_tasks omap list_omap run_tasks foldl].
    match goal with |- context [retry_cycles envs entry ?w1] =>
      destruct (IH w1) as (evs & -> & Hct & Hcs)
    end.
    unfold after_prelude. cbn [trace]. eexists.
    split; [by rewrite <- !app_assoc|].
    split.
    + by rewrite created_tasks_debug_events.
    + rewrite filter_debug_events by done. by cbn.
Qed.

(* ===================================================================== *)
(** ** Further properties of the de-duplication arbiter *)
(* ===================================================================== *)

Section ArbiterFurther.

Implicit Types (ud : gmap string string) (devs : list Device).

Lemma owner_allows_setdefault uid ud k d :
  owner_allows uid (setdefault k uid ud).2 d = owner_allows uid ud d.
Proof.
  unfold owner_allows, setdefault.
  destruct (ud !! k) as [o|] eqn:Ek; simpl; [done|].
  destruct (decide (k = deviceid d)) as [->|Hne].
  - by rewrite lookup_insert_eq, Ek, String.eqb_refl.
  - by rewrite lookup_insert_ne.
Qed.

Lemma setdefault_owner_allows uid ud d :
  String.eqb (setdefault (deviceid d) uid ud).1 uid = owner_allows uid ud d.
Proof.
  unfold owner_allows, setdefault.
  destruct (ud !! deviceid d); simpl; [done|]. apply String.eqb_refl.
Qed.

(** The devices kept are those that the table allowed before the call. *)
Lemma internal_unique_devices_kept uid devs ud :
  (internal_unique_devices uid devs ud).1
    = List.filter (owner_allows uid ud) devs.
Proof.
  revert ud. induction devs as [|d devs IH]; intros ud; [done|].
  rewrite internal_unique_devices_cons. cbn [fst List.filter].
  rewrite setdefault_owner_allows, IH.
  rewrite (List.filter_ext _ (owner_allows uid ud)); [done|].
  intros d'. apply owner_allows_setdefault.
Qed.

(** The table after the call: old bindings stay, the free ids of the
    list are bound to [uid]. *)
Lemma internal_unique_devices_table uid devs ud k :
  (internal_unique_devices uid devs ud).2 !! k =
    match ud !! k with
    | Some o => Some o
    | None => if bool_decide (k ∈ deviceid <$> devs) then Some uid else None
    end.
Proof.
  revert ud. induction devs as [|d devs IH]; intros ud.
  - simpl. by destruct (ud !! k).
  - rewrite internal_unique_devices_cons. cbn [snd]. rewrite IH.
    destruct (decide (deviceid d = k)) as [<-|Hne].
    + rewrite setdefault_owner.
      rewrite (bool_decide_eq_true_2 (deviceid d ∈ deviceid <$> d :: devs))
        by (rewrite fmap_cons; apply list_elem_of_here).
      unfold setdefault. by destruct (ud !! deviceid d).
    + rewrite setdefault_other by done.
      destruct (ud !! k); [done|].
      rewrite fmap_cons.
      destruct (decide (k ∈ deviceid <$> devs)) as [Hin|Hin].
      * rewrite !bool_decide_eq_true_2; [done| by apply list_elem_of_further | done].
      * rewrite !bool_decide_eq_false_2; [done| | done].
        intros [?|?]%elem_of_cons; congruence.
Qed.

End ArbiterFurther.

(** X1.  [internal_unique_devices] is a pure filter on the table it
    finds: a device is kept exactly when its id is free in
    [UNIQUE_DEVICES] or bound to [uid] before the call; and the table it
    leaves keeps every old binding and binds the free ids of the list to
    [uid]. *)
Theorem internal_unique_devices_pure_filter
    (uid : string) (devs : list Device) (ud : gmap string string) :
  let r := internal_unique_devices uid devs ud in
  r.1 = List.filter (owner_allows uid ud) devs ∧
  ∀ k, r.2 !! k =
         match ud !! k with
         | Some o => Some o
         | None => if bool_decide (k ∈ deviceid <$> devs) then Some uid else None
         end.
Proof.
  split.
  - apply internal_unique_devices_kept.
  - intros k. apply internal_unique_devices_table.
Qed.

(** Filtering the same list again for the same account. *)
Lemma internal_unique_devices_again uid devs ud kept ud' :
  internal_unique_devices uid devs ud = (kept, ud') →
  internal_unique_devices uid devs ud' = (kept, ud').
Proof.
  intros E.
  destruct (internal_unique_devices uid devs ud') as [kept2 ud2] eqn:E2.
  f_equal.
  - change kept2 with (kept2, ud2).1. change kept with (kept, ud').1.
    rewrite <- E2, <- E, !internal_unique_devices_kept.
    apply List.filter_ext_in. intros d Hd%list_elem_of_In.
    unfold owner_allows.
    change ud' with (kept, ud').2. rewrite <- E, internal_unique_devices_table.
    destruct (ud !! deviceid d); [done|].
    rewrite bool_decide_eq_true_2 by (by apply list_elem_of_fmap_2).
    by rewrite String.eqb_refl.
  - apply map_eq. intros k.
    change ud2 with (kept2, ud2).2. rewrite <- E2, internal_unique_devices_table.
    change ud' with (kept, ud').2. rewrite <- E, internal_unique_devices_table.
    destruct (ud !! k); [done|]. by destruct (bool_decide _).
Qed.

(** X2.  Filtering the same list again for the same account gives the
    same devices and leaves the table as the first call left it. *)
Theorem internal_unique_devices_idempotent
    (uid : string) (devs : list Device) (ud : gmap string string) :
  let r := internal_unique_devices uid devs ud in
  internal_unique_devices uid devs r.2 = r.
Proof.
  intros r. subst r.
  destruct (internal_unique_devices uid devs ud) as [kept ud'] eqn:E.
  cbn [snd]. by apply (internal_unique_devices_again uid devs ud).
Qed.

(** X3.  No device id is kept for two accounts: when [A] has kept a
    device, any later call for another account [B], on a table that still
    has the bindings [A]'s call left, keeps no device with that id. *)
Theorem internal_unique_devices_exclusive
    (A B : string) (devsA devsB : list Device) (ud ud2 : gmap string string)
    (dA dB : Device) :
  A ≠ B →
  (internal_unique_devices A devsA ud).2 ⊆ ud2 →
  dA ∈ (internal_unique_devices A devsA ud).1 →
  dB ∈ (internal_unique_devices B devsB ud2).1 →
  deviceid dA ≠ deviceid dB.
Proof.
  intros Hne Hsub HA HB Hid.
  apply internal_unique_devices_owned in HA, HB.
  eapply lookup_weaken in HA; [|exact Hsub].
  apply (internal_unique_devices_keeps B devsB) in HA.
  rewrite Hid in HA. congruence.
Qed.

Lemma internal_unique_devices_exclusive_witness :
  deviceid (mkDevice "1000abcd12" []) ≠ deviceid (mkDevice "1000abcd13" []).
Proof.
  apply (internal_unique_devices_exclusive "A" "B"
           [mkDevice "1000abcd12" []]
           [mkDevice "1000abcd12" [("name", "copy")]; mkDevice "1000abcd13" []]
           ∅ {[ "1000abcd12" := "A"; "1000abcd77" := "C" ]}).
  - discriminate.
  - replace (internal_unique_devices "A" [mkDevice "1000abcd12" []] ∅).2
      with ({[ "1000abcd12" := "A" ]} : gmap string string)
      by (vm_compute; reflexivity).
    apply map_subseteq_spec. intros k v.
    rewrite lookup_singleton_Some. intros [<- <-]. reflexivity.
  - vm_compute. apply list_elem_of_here.
  - vm_compute. apply list_elem_of_here.
Defined.

(* ===================================================================== *)
(** ** The registries and the ownership table *)
(* ===================================================================== *)

Section RegistryInvariant.

Implicit Types (rs : list (string * XRegistry)) (ud : gmap string string).

Lemma data_get_None_keys eid rs : data_get eid rs = None ↔ eid ∉ rs.*1.
Proof.
  induction rs as [|[k r] rs IH]; cbn [data_get].
  - split; [intros _; apply not_elem_of_nil | done].
  - rewrite fmap_cons, not_elem_of_cons. cbn [fst].
    destruct (String.eqb_spec k eid) as [->|Hne].
    + split; [done|]. by intros [? _].
    + rewrite IH. split; [by intros ?; split|by intros [_ ?]].
Qed.

Lemma data_set_keys eid r rs :
  (data_set eid r rs).*1 =
    match data_get eid rs with
    | Some _ => rs.*1
    | None => rs.*1 ++ [eid]
    end.
Proof.
  induction rs as [|[k r0] rs IH]; [done|]. cbn [data_set data_get].
  destruct (String.eqb_spec k eid) as [->|Hne]; [done|].
  rewrite !fmap_cons, IH. by destruct (data_get eid rs).
Qed.

Lemma data_set_NoDup eid r rs : NoDup rs.*1 → NoDup (data_set eid r rs).*1.
Proof.
  intros Hnd. rewrite data_set_keys.
  destruct (data_get eid rs) eqn:E; [done|].
  apply NoDup_app. split; [done|]. split; [|apply NoDup_singleton].
  intros x Hx ->%list_elem_of_singleton. by apply data_get_None_keys in E.
Qed.

(** Storing under [eid] a registry whose devices the table gives to [eid],
    while the table only gains bindings, keeps the invariant. *)
Lemma registries_inv_set rs ud eid r' ud' :
  registries_inv rs ud →
  (∀ k o, ud !! k = Some o → ud' !! k = Some o) →
  (∀ id d, devices r' !! id = Some d → deviceid d = id ∧ ud' !! id = Some eid) →
  registries_inv (data_set eid r' rs) ud'.
Proof.
  intros [Hnd Hinv] Hgrow Hnew. split; [by apply data_set_NoDup|].
  intros eid0 r0 id d Hget Hd.
  destruct (decide (eid = eid0)) as [<-|Hne].
  - rewrite data_get_set_eq in Hget. injection Hget as <-. by apply Hnew.
  - rewrite data_get_set_ne in Hget by done.
    destruct (Hinv _ _ _ _ Hget Hd) as [? Hown]. split; [done|].
    by apply Hgrow.
Qed.

Lemma merge_devices_lookup devs (m : gmap string Device) id d :
  merge_devices devs m !! id = Some d →
  (d ∈ devs ∧ deviceid d = id) ∨ m !! id = Some d.
Proof.
  induction devs as [|d0 devs IH] using rev_ind; [by right|].
  rewrite merge_devices_snoc.
  destruct (decide (deviceid d0 = id)) as [<-|Hne].
  - rewrite lookup_insert_eq. intros [= <-]. left. split; [|done].
    apply elem_of_app. right. apply list_elem_of_here.
  - rewrite lookup_insert_ne by done. intros [[Hin ?]|?]%IH; [left|by right].
    split; [|done]. apply elem_of_app. by left.
Qed.

(** The population step keeps the invariant. *)
Lemma registries_inv_populate rs ud eid r c devs kept ud' :
  registries_inv rs ud →
  data_get eid rs = Some r →
  internal_unique_devices eid devs ud = (kept, ud') →
  registries_inv
    (data_set eid {| cloud_auth := c;
                     devices := merge_devices kept (devices r) |} rs) ud'.
Proof.
  intros Hinv Hget E.
  assert (Hud : ud' = (internal_unique_devices eid devs ud).2) by by rewrite E.
  assert (Hk : kept = (internal_unique_devices eid devs ud).1) by by rewrite E.
  apply (registries_inv_set rs ud); [done| |].
  - intros k o Hko. subst ud'. by apply internal_unique_devices_keeps.
  - cbn [devices]. intros id d [[Hin <-]|Hold]%merge_devices_lookup.
    + split; [done|]. subst. by apply internal_unique_devices_owned.
    + destruct Hinv as [_ Hinv]. destruct (Hinv _ _ _ _ Hget Hold) as [? Hown].
      split; [done|]. subst ud'. by apply internal_unique_devices_keeps.
Qed.

(** A registry replaced by one with the same devices, and a registry
    without devices stored under a new id, keep it as well. *)
Lemma registries_inv_same_devices rs ud eid r r' :
  registries_inv rs ud →
  data_get eid rs = Some r → devices r' = devices r →
  registries_inv (data_set eid r' rs) ud.
Proof.
  intros Hinv Hget Hd. apply (registries_inv_set rs ud); [done|done|].
  rewrite Hd. intros id d. by apply Hinv.
Qed.

Lemma registries_inv_no_devices rs ud eid r' :
  registries_inv rs ud → devices r' = ∅ →
  registries_inv (data_set eid r' rs) ud.
Proof.
  intros Hinv Hd. apply (registries_inv_set rs ud); [done|done|].
  rewrite Hd. intros id d. by rewrite lookup_empty.
Qed.

Ltac inv_step :=
  first
    [ assumption
    | eapply registries_inv_populate; [|eassumption|eassumption]
    | eapply registries_inv_same_devices; [|eassumption|reflexivity]
    | eapply registries_inv_same_devices;
        [|apply data_get_set_eq|reflexivity]
    | eapply registries_inv_no_devices; [|reflexivity] ].

Lemma run_task_registry_inv env t w :
  registry_inv w → registry_inv (run_task env t w).2.
Proof.
  unfold registry_inv. intros Hinv.
  destruct t as [entry|entry]; unfold run_task; exec.
  all: repeat inv_step.
Qed.

Lemma async_setup_entry_registry_inv env entry w :
  registry_inv w → registry_inv (async_setup_entry env entry w).2.
Proof.
  unfold registry_inv. intros Hinv. exec.
  all: repeat inv_step.
Qed.

Lemma run_tasks_registry_inv env ts w :
  registry_inv w → registry_inv (run_tasks env ts w).
Proof.
  revert w. induction ts as [|t ts IH]; intros w Hinv; [done|].
  cbn [run_tasks foldl]. apply IH. by apply run_task_registry_inv.
Qed.

Lemma setup_cycle_registry_inv env entry w :
  registry_inv w → registry_inv (setup_cycle env entry w).2.
Proof.
  intros Hinv. unfold setup_cycle.
  pose proof (async_setup_entry_registry_inv env entry w Hinv) as H1.
  destruct (async_setup_entry env entry w) as [r w1]. cbn [snd] in *.
  by apply run_tasks_registry_inv.
Qed.

End RegistryInvariant.

Lemma run_cycles_preserve_registry_inv cs w :
  registry_inv w → registry_inv (run_cycles cs w).
Proof.
  revert w. induction cs as [|[env entry] cs IH]; intros w Hinv; [done|].
  cbn [run_cycles foldl]. apply IH. by apply setup_cycle_registry_inv.
Qed.

Lemma registries_inv_nil ud : registries_inv [] ud.
Proof. split; [apply NoDup_nil_2 | intros ? ? ? ? [=]]. Qed.

(** X4.  From [async_setup] on, whatever set-up cycles run afterwards
    and whatever the cloud answers, every device of a registry sits
    under its own id and [UNIQUE_DEVICES] names the entry of that
    registry as its owner; so no device id is in the registries of two
    entries. *)
Theorem registries_agree_with_ownership_table
    (config : option YamlConfig) (has_entries : bool) (w : World)
    (cs : list (Env * ConfigEntry)) :
  let w' := run_cycles cs (async_setup true config has_entries w).1.2 in
  registry_inv w' ∧
  ∀ eid1 eid2 r1 r2 id,
    data_get eid1 (registries w') = Some r1 →
    data_get eid2 (registries w') = Some r2 →
    is_Some (devices r1 !! id) → is_Some (devices r2 !! id) →
    eid1 = eid2.
Proof.
  intros w'.
  assert (Hinv : registry_inv w').
  { apply run_cycles_preserve_registry_inv. apply registries_inv_nil. }
  split; [done|].
  intros eid1 eid2 r1 r2 id H1 H2 [d1 Hd1] [d2 Hd2].
  destruct Hinv as [_ Hinv].
  destruct (Hinv _ _ _ _ H1 Hd1) as [_ Ho1].
  destruct (Hinv _ _ _ _ H2 Hd2) as [_ Ho2]. congruence.
Qed.

Lemma registries_agree_with_ownership_table_witness :
  let dev := mkDevice "1000abcd12" [] in
  let env := {| login_outcome := LoginSuccess "token";
                cloud_devices := [dev] |} in
  let entry eid :=
    {| entry_id := eid; state := NOT_LOADED;
       data_username := Some eid; data_password := Some "secret";
       options_mode := None; options_debug := false;
       update_listeners := false |} in
  let w := {| registries := []; UNIQUE_DEVICES := ∅; store := ∅;
              logger_handlers := false; trace := [] |} in
  let w' := run_cycles [(env, entry "A"); (env, entry "B")]
              (async_setup true None false w).1.2 in
  is_Some (registry_devices "A" w' !! "1000abcd12") ∧
  registry_devices "B" w' !! "1000abcd12" = None.
Proof.
  intros dev env entry w w'.
  assert (HA : ∃ rA, data_get "A" (registries w') = Some rA ∧
                     devices rA !! "1000abcd12" = Some dev).
  { eexists. split; vm_compute; reflexivity. }
  destruct HA as (rA & HA & HdA).
  split.
  - unfold registry_devices. rewrite HA. by eexists.
  - unfold registry_devices.
    destruct (data_get "B" (registries w')) as [rB|] eqn:HB; [|done].
    destruct (devices rB !! "1000abcd12") as [dB|] eqn:HdB; [|done].
    assert (E : "A" = "B"); [|discriminate E].
    apply (proj2 (registries_agree_with_ownership_table None false w
                    [(env, entry "A"); (env, entry "B")])
             "A" "B" rA rB "1000abcd12" HA HB); by eexists.
Defined.

Lemma data_get_elem_of eid r (rs : list (string * XRegistry)) :
  NoDup rs.*1 → (eid, r) ∈ rs → data_get eid rs = Some r.
Proof.
  induction rs as [|[k r0] rs IH]; [by intros _ ?%elem_of_nil|].
  rewrite fmap_cons, NoDup_cons. cbn [fst data_get].
  intros [Hk Hnd] [[= -> ->]|Hin]%elem_of_cons.
  - by rewrite String.eqb_refl.
  - destruct (String.eqb_spec k eid) as [->|Hne]; [|by apply IH].
    destruct Hk. apply list_elem_of_fmap. by exists (eid, r).
Qed.

(** X5.  With the registries in agreement with the ownership table, a
    command for a device id of length 10 that returns has been sent, by
    one call of [registry.send] with the remaining data of the call, to
    the registry of the entry that [UNIQUE_DEVICES] names as the owner of
    the id, for the device stored there under that id. *)
Theorem send_command_reaches_owner
    (call : ServiceCall) (id : string) (w : World) :
  registry_inv w →
  call_device call = Some id →
  String.length id = 10 →
  (send_command call w).1 = inr tt →
  ∃ eid r d,
    UNIQUE_DEVICES w !! id = Some eid ∧
    data_get eid (registries w) = Some r ∧
    devices r !! id = Some d ∧ deviceid d = id ∧
    trace (send_command call w).2
      = trace w ++ [EvSend eid d (call_data call)].
Proof.
  intros [Hnd Hinv] Hid Hlen.
  unfold send_command, coroutine, send_command_body, gets, raise, emit,
    mbind, M_bind, mret, M_ret.
  rewrite Hid. cbn. rewrite Hlen. cbn.
  destruct (find (holds_device id) (registries w)) as [[eid r]|] eqn:Hf;
    [|done].
  apply find_some in Hf as [Hin%list_elem_of_In Hh]. cbn.
  destruct (devices r !! id) as [d|] eqn:Hd; [|done].
  cbn. intros _.
  pose proof (data_get_elem_of eid r _ Hnd Hin) as Hget.
  destruct (Hinv _ _ _ _ Hget Hd) as [Hdid Hown].
  by exists eid, r, d.
Qed.

Lemma send_command_reaches_owner_witness :
  let dev := mkDevice "1000abcd12" [("name", "plug")] in
  let w := {| registries :=
                [("A", {| cloud_auth := None; devices := ∅ |});
                 ("B", {| cloud_auth := Some "token";
                          devices := {[ "1000abcd12" := dev ]} |})];
              UNIQUE_DEVICES := {[ "1000abcd12" := "B" ]}; store := ∅;
              logger_handlers := false; trace := [] |} in
  let call := {| call_device := Some "1000abcd12";
                 call_data := [("switch", "on")] |} in
  ∃ eid r d,
    UNIQUE_DEVICES w !! "1000abcd12" = Some eid ∧
    data_get eid (registries w) = Some r ∧
    devices r !! "1000abcd12" = Some d ∧ deviceid d = "1000abcd12" ∧
    trace (send_command call w).2
      = trace w ++ [EvSend eid d (call_data call)].
Proof.
  intros dev w call.
  apply (send_command_reaches_owner call "1000abcd12" w).
  - split.
    + cbn. apply NoDup_cons_2; [|apply NoDup_singleton].
      by intros H%list_elem_of_singleton.
    + intros eid r id d. cbn [registries w data_get].
      destruct (String.eqb_spec "A" eid) as [<-|_].
      * intros [= <-]. cbn [devices]. by rewrite lookup_empty.
      * destruct (String.eqb_spec "B" eid) as [<-|_]; [|done].
        intros [= <-]. cbn [devices].
        intros [<- <-]%lookup_singleton_Some. done.
  - reflexivity.
  - reflexivity.
  - vm_compute. reflexivity.
Defined.

(** X6.  A call of [send_command] never changes the registries, the
    ownership table or the store.  When it returns it has made exactly
    one call: a send to a registry or to the cameras, or an error log.
    When it raises it has done nothing at all, and what it raises is a
    [KeyError] or the [RuntimeError] of the coroutine. *)
Theorem send_command_one_call_or_nothing (call : ServiceCall) (w : World) :
  let res := send_command call w in
  registries res.2 = registries w ∧
  UNIQUE_DEVICES res.2 = UNIQUE_DEVICES w ∧
  store res.2 = store w ∧
  match res.1 with
  | inr _ => ∃ ev, trace res.2 = trace w ++ [ev] ∧
                   is_transport_call ev || is_log ev = true
  | inl (KeyError _) | inl (RuntimeError _) => res.2 = w
  | inl _ => False
  end.
Proof.
  unfold send_command, coroutine, send_command_body, gets, raise, emit,
    mbind, M_bind, mret, M_ret. cbn.
  destruct (call_device call) as [id|]; cbn; [|done].
  destruct (String.length id =? 10)%nat; cbn.
  - destruct (find (holds_device id) (registries w)) as [[eid r]|]; cbn;
      [|done].
    destruct (devices r !! id) as [d|]; cbn; [|done].
    repeat split. by eexists.
  - destruct (String.length id =? 6)%nat; cbn.
    + destruct (dict_index "cmd" (call_data call)); cbn; [|done].
      repeat split. by eexists.
    + repeat split. by eexists.
Qed.

(* ===================================================================== *)
(** ** Further properties of [async_setup_entry] *)
(* ===================================================================== *)

Section SetupEntryFurther.

Variables (env : Env) (entry : ConfigEntry) (w : World).

Local Abbreviation eid := (entry_id entry).

(** The two shapes of the world after an invocation: the first lines
    and some calls, or these and the authentication of a login. *)
Lemma async_setup_entry_world :
  (∃ evs, (async_setup_entry env entry w).2 = after_prelude entry w evs) ∨
  (∃ a evs,
     login_outcome env = LoginSuccess a ∧
     (async_setup_entry env entry w).2 =
       {| registries :=
            data_set eid {| cloud_auth := Some a;
                            devices := registry_devices eid w |}
              (ensure_registry eid (registries w));
          UNIQUE_DEVICES := UNIQUE_DEVICES w; store := store w;
          logger_handlers := logger_handlers w;
          trace := trace w ++ debug_events entry w ++ evs |}).
Proof.
  destruct (decide (state entry = SETUP_RETRY)) as [Hst|Hst].
  - destruct (mode_in (get_mode entry) ["auto"; "cloud"]) eqn:Hm.
    + destruct (login_outcome env) as [a|e] eqn:Hlog.
      * right. exists a. eexists. split; [done|].
        by rewrite (retry_login_succeeds env entry w a).
      * left. eexists. by rewrite (retry_login_fails env entry w e).
    + left. eexists. by rewrite retry_asserts_cloud_mode.
  - destruct (bool_decide (registry_auth eid w = None) &&
              truthy (data_username entry) && truthy (data_password entry))
      eqn:Hc.
    + apply andb_prop in Hc as [[Ha%bool_decide_eq_true_1 Hu]%andb_prop Hp].
      destruct (login_outcome env) as [a|e] eqn:Hlog.
      * right. exists a. eexists. split; [done|].
        by rewrite (first_attempt_login_succeeds env entry w a).
      * left. eexists. by rewrite (first_attempt_login_fails env entry w e).
    + left. eexists. by rewrite first_attempt_without_login.
Qed.

Lemma data_get_ensure_registry_ne eid' rs :
  eid' ≠ eid → data_get eid' (ensure_registry eid rs) = data_get eid' rs.
Proof.
  intros Hne. unfold ensure_registry. destruct (data_get eid rs); [done|].
  by apply data_get_set_ne.
Qed.

Lemma registry_devices_ensure_registry eid' rs u s h t :
  registry_devices eid'
    {| registries := ensure_registry eid rs; UNIQUE_DEVICES := u; store := s;
       logger_handlers := h; trace := t |}
  = match data_get eid' rs with Some r => devices r | None => ∅ end.
Proof.
  unfold registry_devices. cbn [registries].
  destruct (decide (eid' = eid)) as [->|Hne].
  - rewrite data_get_ensure_registry. by destruct (data_get eid rs).
  - by rewrite data_get_ensure_registry_ne.
Qed.

End SetupEntryFurther.

(** X7.  What one invocation of [async_setup_entry] touches: never the
    ownership table, the store, the devices of any registry or the
    registry of another entry.  It leaves a registry stored for its
    entry, whose authentication is the one it found unless the cloud has
    answered a login with success. *)
Theorem async_setup_entry_frame (env : Env) (entry : ConfigEntry) (w : World) :
  let w' := (async_setup_entry env entry w).2 in
  UNIQUE_DEVICES w' = UNIQUE_DEVICES w ∧
  store w' = store w ∧
  (∀ eid', registry_devices eid' w' = registry_devices eid' w) ∧
  (∀ eid', eid' ≠ entry_id entry →
           data_get eid' (registries w') = data_get eid' (registries w)) ∧
  is_Some (data_get (entry_id entry) (registries w')) ∧
  (registry_auth (entry_id entry) w' = registry_auth (entry_id entry) w ∨
   ∃ a, login_outcome env = LoginSuccess a ∧
        registry_auth (entry_id entry) w' = Some a).
Proof.
  intros w'. subst w'.
  destruct (async_setup_entry_world env entry w)
    as [[evs ->]|(a & evs & Hlog & ->)].
  - unfold after_prelude. cbn [UNIQUE_DEVICES store registries].
    split; [done|]. split; [done|]. split.
    { intros eid'. by rewrite registry_devices_ensure_registry. }
    split. { intros eid' Hne. by apply data_get_ensure_registry_ne. }
    split. { by rewrite data_get_ensure_registry. }
    left. apply (registry_auth_after_prelude entry w evs).
  - cbn [UNIQUE_DEVICES store registries].
    split; [done|]. split; [done|]. split.
    { intros eid'. unfold registry_devices at 1. cbn [registries].
      destruct (decide (eid' = entry_id entry)) as [->|Hne].
      - by rewrite data_get_set_eq.
      - rewrite data_get_set_ne, data_get_ensure_registry_ne by done. done. }
    split.
    { intros eid' Hne.
      by rewrite data_get_set_ne, data_get_ensure_registry_ne. }
    split. { by rewrite data_get_set_eq. }
    right. exists a. split; [done|].
    unfold registry_auth. cbn [registries]. by rewrite data_get_set_eq.
Qed.

Lemma async_setup_entry_frame_witness :
  let env := {| login_outcome := LoginSuccess "token"; cloud_devices := [] |} in
  let entry := {| entry_id := "A"; state := NOT_LOADED;
                  data_username := Some "a@example.com";
                  data_password := Some "secret"; options_mode := None;
                  options_debug := false; update_listeners := false |} in
  let other := {| cloud_auth := Some "other";
                  devices := {[ "1000abcd12" := mkDevice "1000abcd12" [] ]} |} in
  let w := {| registries := [("B", other)];
              UNIQUE_DEVICES := {[ "1000abcd12" := "B" ]}; store := ∅;
              logger_handlers := false; trace := [] |} in
  data_get "B" (registries (async_setup_entry env entry w).2) = Some other.
Proof.
  intros env entry other w.
  destruct (async_setup_entry_frame env entry w) as (_ & _ & _ & Hother & _).
  rewrite (Hother "B"); [reflexivity | discriminate].
Defined.

(** X8.  How an invocation of [async_setup_entry] can end.  It returns
    [True] or raises; it never returns [False].  It raises
    [ConfigEntryNotReady] or [ConfigEntryAuthFailed] only around the
    exception of a login it made, in mode [auto] or [cloud], the second
    only for an [AuthError] and only outside the retry; an
    [AssertionError] only in another mode; and nothing else. *)
Theorem async_setup_entry_outcomes (env : Env) (entry : ConfigEntry) (w : World) :
  match (async_setup_entry env entry w).1 with
  | inr b => b = true
  | inl (ConfigEntryNotReady e) =>
      login_outcome env = LoginRaises e ∧
      mode_in (get_mode entry) ["auto"; "cloud"] = true ∧
      (state entry = SETUP_RETRY ∨ is_AuthError e = false)
  | inl (ConfigEntryAuthFailed e) =>
      login_outcome env = LoginRaises e ∧
      mode_in (get_mode entry) ["auto"; "cloud"] = true ∧
      state entry ≠ SETUP_RETRY ∧ is_AuthError e = true
  | inl AssertionError =>
      mode_in (get_mode entry) ["auto"; "cloud"] = false ∧
      (state entry = SETUP_RETRY ∨ get_mode entry ≠ "local")
  | inl _ => False
  end.
Proof.
  destruct (decide (state entry = SETUP_RETRY)) as [Hst|Hst].
  - destruct (mode_in (get_mode entry) ["auto"; "cloud"]) eqn:Hm.
    + destruct (login_outcome env) as [a|e] eqn:Hlog.
      * by rewrite (retry_login_succeeds env entry w a).
      * rewrite (retry_login_fails env entry w e) by done. cbn [fst].
        split; [done|]. split; [done|]. by left.
    + rewrite retry_asserts_cloud_mode by done. cbn [fst].
      split; [done|]. by left.
  - destruct (bool_decide (registry_auth (entry_id entry) w = None) &&
              truthy (data_username entry) && truthy (data_password entry))
      eqn:Hc.
    + apply andb_prop in Hc as [[Ha%bool_decide_eq_true_1 Hu]%andb_prop Hp].
      destruct (login_outcome env) as [a|e] eqn:Hlog.
      * by rewrite (first_attempt_login_succeeds env entry w a).
      * rewrite (first_attempt_login_fails env entry w e) by done.
        cbn [fst]. destruct (mode_in (get_mode entry) ["auto"; "cloud"]).
        -- destruct (is_AuthError e) eqn:He.
           ++ done.
           ++ split; [done|]. split; [done|]. by right.
        -- destruct (String.eqb_spec (get_mode entry) "local"); [done|].
           split; [done|]. by right.
    + by rewrite first_attempt_without_login.
Qed.

(* ===================================================================== *)
(** ** Further properties of the bootstrap coroutines *)
(* ===================================================================== *)

Section BootstrapFurther.

Variables (env : Env) (entry : ConfigEntry).

Local Abbreviation eid := (entry_id entry).

(** The cache bootstrap reads the store under the key of the username
    and never asks the cloud for the devices. *)
Lemma internal_cache_setup_loads w u :
  data_username entry = Some u →
  ∃ evs, trace (internal_cache_setup entry None w).2 = trace w ++ evs ∧
    In (EvStoreLoad (store_key u)) evs ∧
    List.filter is_get_devices evs = [].
Proof.
  intros Hu. exec.
  all: eexists; (split; [rewrite <- ?app_assoc; reflexivity|]).
  all: cbn; split; [|done]; tauto.
Qed.

(** The normal bootstrap of an account that holds an authentication and
    has a username: where it leaves the world. *)
Lemma internal_normal_setup_with_auth w r a u :
  data_get eid (registries w) = Some r →
  cloud_auth r = Some a →
  data_username entry = Some u →
  let devs := cloud_devices env in
  let filtered := internal_unique_devices eid devs (UNIQUE_DEVICES w) in
  let run := internal_normal_setup env entry w in
  run.1 = inr tt ∧
  store run.2 = <[store_key u := devs]> (store w) ∧
  UNIQUE_DEVICES run.2 = filtered.2 ∧
  registry_devices eid run.2 = merge_devices filtered.1 (devices r) ∧
  registry_auth eid run.2 = Some a ∧
  existsb is_cloud_start (new_events w run.2)
    = negb (String.eqb (get_mode entry) "local") ∧
  existsb is_local_start (new_events w run.2)
    = negb (String.eqb (get_mode entry) "cloud").
Proof.
  intros Hr Ha Hu devs filtered run. subst devs filtered run.
  unfold new_events, registry_devices, registry_auth.
  exec.
  all: rewrite <- ?app_assoc, ?drop_app_length.
  all: cbn -[internal_unique_devices merge_devices data_get data_set].
  all: rewrite ?data_get_set_eq, ?Hr; cbn [devices cloud_auth].
  all: repeat match goal with
       | E : negb _ = _ |- _ => rewrite E
       | E : negb _ && _ = _ |- _ =>
           rewrite andb_true_r in E; rewrite E
       end.
  all: try done.
Qed.

(** A bootstrap task leaves every authentication as it is. *)
Lemma run_task_registry_auth t w eid' :
  t = TaskNormalSetup entry ∨ t = TaskCacheSetup entry →
  registry_auth eid' (run_task env t w).2 = registry_auth eid' w.
Proof.
  intros [-> | ->]; unfold run_task; exec.
  all: try done.
  all: unfold registry_auth; cbn [registries].
  all: destruct (decide (eid' = eid)) as [->|Hne];
    [ rewrite data_get_set_eq;
      repeat match goal with H : data_get _ _ = _ |- _ => rewrite H end
    | rewrite data_get_set_ne by done ]; done.
Qed.

End BootstrapFurther.

Lemma new_events_split w w1 w2 evs1 evs2 :
  trace w1 = trace w ++ evs1 →
  trace w2 = trace w1 ++ evs2 →
  new_events w w2 = evs1 ++ evs2 ∧ new_events w1 w2 = evs2.
Proof.
  unfold new_events. intros H1 H2. rewrite H2, H1. split.
  - by rewrite <- app_assoc, drop_app_length.
  - by rewrite <- H1, drop_app_length.
Qed.

Lemma truthy_Some s : truthy s = true → ∃ u, s = Some u.
Proof. destruct s; [by eexists | done]. Qed.

(** X9.  A first attempt whose login fails, for whatever reason, in mode
    [auto] or [local]: the invocation creates the cache bootstrap as its
    one task, and that task reads the devices from the store and starts
    the local transport, without asking the cloud for devices and without
    starting the cloud transport.  In mode [local] the invocation returns
    [True]; in mode [auto] it raises for the host. *)
Theorem login_failure_starts_local_from_cache
    (env : Env) (entry : ConfigEntry) (w : World) (e : Exn) :
  state entry ≠ SETUP_RETRY →
  registry_auth (entry_id entry) w = None →
  truthy (data_username entry) = true →
  truthy (data_password entry) = true →
  login_outcome env = LoginRaises e →
  mode_in (get_mode entry) ["auto"; "local"] = true →
  let cycle := setup_cycle env entry w in
  let evs := new_events w cycle.2 in
  cycle.1 = (if String.eqb (get_mode entry) "local" then inr true
             else inl (if is_AuthError e then ConfigEntryAuthFailed e
                       else ConfigEntryNotReady e)) ∧
  created_tasks evs = [TaskCacheSetup entry] ∧
  In (EvLocalStart (entry_id entry)) evs ∧
  (∃ u, data_username entry = Some u ∧ In (EvStoreLoad (store_key u)) evs) ∧
  List.filter is_cloud_start evs = [] ∧
  List.filter is_get_devices evs = [].
Proof.
  intros Hst Ha Hu Hp Hlog Hm cycle evs. subst evs cycle.
  destruct (truthy_Some _ Hu) as [u Hsome].
  unfold setup_cycle.
  rewrite (first_attempt_login_fails env entry w e) by done.
  rewrite Hm. cbn [app].
  rewrite new_events_after_prelude, created_tasks_debug_events.
  cbn [created_tasks omap list_omap run_tasks foldl run_task fst snd].
  set (w1 := after_prelude entry w _).
  destruct (internal_cache_setup_events entry None w1)
    as (evs & Htr & Hct & _ & Hcs & _).
  destruct (internal_cache_setup_loads entry w1 u Hsome)
    as (evs' & Htr' & Hload & Hget).
  assert (evs' = evs) as ->
    by (rewrite Htr in Htr'; by apply app_inv_head in Htr').
  destruct (run_task_completes env entry (TaskCacheSetup entry) w1)
    as [_ Hlocal].
  { by right. }
  { unfold w1, after_prelude. cbn [registries].
    by rewrite data_get_ensure_registry. }
  { by rewrite Hsome. }
  cbn [run_task] in Hlocal.
  destruct (new_events_split w w1 _ _ evs eq_refl Htr) as [-> Hnew1].
  rewrite Hnew1 in Hlocal.
  assert (Hmode : get_mode entry = "auto" ∨ get_mode entry = "local").
  { unfold mode_in in Hm. cbn [existsb] in Hm.
    destruct (String.eqb_spec (get_mode entry) "auto"); [by left|].
    destruct (String.eqb_spec (get_mode entry) "local"); [by right|done]. }
  split.
  { destruct Hmode as [-> | ->]; reflexivity. }
  split.
  { rewrite created_tasks_app, created_tasks_debug_events, Hct. done. }
  split.
  { apply in_or_app. right. apply Hlocal.
    destruct Hmode as [-> | ->]; discriminate. }
  split.
  { exists u. split; [done|]. apply in_or_app. by right. }
  split.
  - rewrite List.filter_app, filter_debug_events by done.
    rewrite Hcs by (left; unfold w1; by rewrite registry_auth_after_prelude).
    done.
  - rewrite List.filter_app, filter_debug_events, Hget by done. done.
Qed.

Lemma login_failure_starts_local_from_cache_witness :
  let env := {| login_outcome := LoginRaises (OtherError "timeout");
                cloud_devices := [] |} in
  let entry := {| entry_id := "acct"; state := NOT_LOADED;
                  data_username := Some "user@example.com";
                  data_password := Some "secret";
                  options_mode := Some "local";
                  options_debug := false; update_listeners := false |} in
  let w := {| registries := []; UNIQUE_DEVICES := ∅; store := ∅;
              logger_handlers := false; trace := [] |} in
  (setup_cycle env entry w).1 = inr true ∧
  In (EvLocalStart "acct") (new_events w (setup_cycle env entry w).2).
Proof.
  intros env entry w.
  destruct (login_failure_starts_local_from_cache
              env entry w (OtherError "timeout"))
    as (Hres & _ & Hlocal & _); try reflexivity.
  - discriminate.
  - split; [exact Hres | exact Hlocal].
Defined.

(** X10.  A first attempt whose login succeeds, for an account with a
    username: the cycle returns [True], the devices that the cloud
    reports are in the store under the key of the username, the registry
    holds the authentication and has gained the devices that passed the
    filter, the table is the one the filter left; the cloud transport is
    started unless the mode is [local] and the local transport unless
    the mode is [cloud]. *)
Theorem login_success_bootstraps_from_cloud
    (env : Env) (entry : ConfigEntry) (w : World) (a u : string) :
  state entry ≠ SETUP_RETRY →
  registry_auth (entry_id entry) w = None →
  data_username entry = Some u →
  truthy (data_username entry) = true →
  truthy (data_password entry) = true →
  login_outcome env = LoginSuccess a →
  let eid := entry_id entry in
  let devs := cloud_devices env in
  let filtered := internal_unique_devices eid devs (UNIQUE_DEVICES w) in
  let cycle := setup_cycle env entry w in
  cycle.1 = inr true ∧
  store cycle.2 !! store_key u = Some devs ∧
  registry_auth eid cycle.2 = Some a ∧
  registry_devices eid cycle.2
    = merge_devices filtered.1 (registry_devices eid w) ∧
  UNIQUE_DEVICES cycle.2 = filtered.2 ∧
  existsb is_cloud_start (new_events w cycle.2)
    = negb (String.eqb (get_mode entry) "local") ∧
  existsb is_local_start (new_events w cycle.2)
    = negb (String.eqb (get_mode entry) "cloud").
Proof.
  intros Hst Ha Hu Htu Hp Hlog eid devs filtered cycle.
  subst eid devs filtered cycle. unfold setup_cycle.
  rewrite (first_attempt_login_succeeds env entry w a) by done.
  rewrite new_events_app, created_tasks_debug_events.
  cbn [created_tasks omap list_omap run_tasks foldl run_task fst snd].
  match goal with
  | |- context [internal_normal_setup env entry ?x] => set (w1 := x)
  end.
  destruct (internal_normal_setup_with_auth env entry w1
              {| cloud_auth := Some a;
                 devices := registry_devices (entry_id entry) w |} a u)
    as (_ & Hstore & Hud & Hdevs & Hauth & Hcs & Hls);
    [apply data_get_set_eq | done | done |].
  destruct (internal_normal_setup_events env entry w1)
    as (evs & Htr & _).
  destruct (new_events_split w w1 _ _ evs eq_refl Htr) as [-> Hnew1].
  rewrite Hnew1 in Hcs, Hls.
  split; [done|]. split; [by rewrite Hstore, lookup_insert_eq|].
  split; [done|]. split; [done|]. split; [done|].
  rewrite <- !app_assoc, !existsb_debug_events by done.
  cbn [app existsb is_cloud_start is_local_start orb]. by rewrite Hcs, Hls.
Qed.

Lemma login_success_bootstraps_from_cloud_witness :
  let dev := mkDevice "1000abcd12" [] in
  let env := {| login_outcome := LoginSuccess "token";
                cloud_devices := [dev] |} in
  let entry := {| entry_id := "acct"; state := NOT_LOADED;
                  data_username := Some "user@example.com";
                  data_password := Some "secret"; options_mode := None;
                  options_debug := false; update_listeners := false |} in
  let w := {| registries := []; UNIQUE_DEVICES := ∅; store := ∅;
              logger_handlers := false; trace := [] |} in
  store (setup_cycle env entry w).2 !! store_key "user@example.com"
    = Some [dev] ∧
  registry_auth "acct" (setup_cycle env entry w).2 = Some "token".
Proof.
  intros dev env entry w.
  destruct (login_success_bootstraps_from_cloud
              env entry w "token" "user@example.com")
    as (_ & Hstore & Hauth & _); try reflexivity.
  - discriminate.
  - split; [exact Hstore | exact Hauth].
Defined.

Lemma run_tasks_registry_auth env entry ts w eid' :
  Forall (λ t, t = TaskNormalSetup entry ∨ t = TaskCacheSetup entry) ts →
  registry_auth eid' (run_tasks env ts w) = registry_auth eid' w.
Proof.
  intros Hts. revert w. induction Hts as [|t ts Ht _ IH]; intros w; [done|].
  cbn [run_tasks foldl]. unfold run_tasks in IH. rewrite IH.
  by apply (run_task_registry_auth env entry).
Qed.

(** The tasks that an invocation creates are bootstraps of its entry. *)
Lemma async_setup_entry_tasks env entry w :
  Forall (λ t, t = TaskNormalSetup entry ∨ t = TaskCacheSetup entry)
    (created_tasks (new_events w (async_setup_entry env entry w).2)).
Proof.
  assert (Hok : ∀ evs, evs = [] ∨ evs = [TaskNormalSetup entry]
                        ∨ evs = [TaskCacheSetup entry] →
            Forall (λ t, t = TaskNormalSetup entry ∨ t = TaskCacheSetup entry)
              evs).
  { intros evs [-> | [-> | ->]].
    - apply List.Forall_nil.
    - apply List.Forall_cons; [by left | apply List.Forall_nil].
    - apply List.Forall_cons; [by right | apply List.Forall_nil]. }
  apply Hok.
  destruct (decide (state entry = SETUP_RETRY)) as [Hst|Hst].
  - destruct (mode_in (get_mode entry) ["auto"; "cloud"]) eqn:Hm.
    + destruct (login_outcome env) as [a|e] eqn:Hlog.
      * rewrite (retry_login_succeeds env entry w a) by done. cbn [snd].
        rewrite new_events_app, created_tasks_debug_events.
        destruct (get_mode entry =? "auto"); [by left|].
        destruct (get_mode entry =? "cloud"); [right; by left | by left].
      * rewrite (retry_login_fails env entry w e) by done. cbn [snd].
        rewrite new_events_after_prelude, created_tasks_debug_events.
        by left.
    + rewrite retry_asserts_cloud_mode by done. cbn [snd].
      rewrite new_events_after_prelude, created_tasks_debug_events. by left.
  - destruct (bool_decide (registry_auth (entry_id entry) w = None) &&
              truthy (data_username entry) && truthy (data_password entry))
      eqn:Hc.
    + apply andb_prop in Hc as [[Ha%bool_decide_eq_true_1 Hu]%andb_prop Hp].
      destruct (login_outcome env) as [a|e] eqn:Hlog.
      * rewrite (first_attempt_login_succeeds env entry w a) by done.
        cbn [snd]. rewrite new_events_app, created_tasks_debug_events.
        right. by left.
      * rewrite (first_attempt_login_fails env entry w e) by done.
        cbn [snd]. rewrite new_events_after_prelude, created_tasks_debug_events.
        destruct (mode_in (get_mode entry) ["auto"; "local"]);
          [right; by right | by left].
    + rewrite first_attempt_without_login by done. cbn [snd].
      rewrite new_events_after_prelude, created_tasks_debug_events.
      right. by left.
Qed.

(** Once a login has succeeded the registry holds its authentication at
    the end of the cycle. *)
Lemma login_success_records_auth env entry w a :
  login_outcome env = LoginSuccess a →
  existsb is_login (new_events w (async_setup_entry env entry w).2) = true →
  registry_auth (entry_id entry) (setup_cycle env entry w).2 = Some a.
Proof.
  intros Hlog Hatt.
  assert (Ha1 : registry_auth (entry_id entry)
                  (async_setup_entry env entry w).2 = Some a).
  { destruct (decide (state entry = SETUP_RETRY)) as [Hst|Hst].
    - destruct (mode_in (get_mode entry) ["auto"; "cloud"]) eqn:Hm.
      + rewrite (retry_login_succeeds env entry w a) by done.
        unfold registry_auth. cbn [snd registries].
        by rewrite data_get_set_eq.
      + rewrite retry_asserts_cloud_mode in Hatt by done. cbn [snd] in Hatt.
        by rewrite new_events_after_prelude, existsb_debug_events in Hatt.
    - destruct (bool_decide (registry_auth (entry_id entry) w = None) &&
                truthy (data_username entry) && truthy (data_password entry))
        eqn:Hc.
      + apply andb_prop in Hc as [[Ha%bool_decide_eq_true_1 Hu]%andb_prop Hp].
        rewrite (first_attempt_login_succeeds env entry w a) by done.
        unfold registry_auth. cbn [snd registries].
        by rewrite data_get_set_eq.
      + rewrite first_attempt_without_login in Hatt by done.
        cbn [snd] in Hatt.
        by rewrite new_events_after_prelude, existsb_debug_events in Hatt. }
  pose proof (async_setup_entry_tasks env entry w) as Hts.
  unfold setup_cycle.
  destruct (async_setup_entry env entry w) as [res w1]. cbn [snd] in *.
  by rewrite (run_tasks_registry_auth env entry).
Qed.

(** X11.  After a cycle in which a login succeeded, a later first
    attempt for the same entry id makes no login, whatever credentials
    the entry carries and whatever the cloud would answer: the
    authentication held by the registry is reused. *)
Theorem authenticated_entry_not_logged_in_again
    (env1 env2 : Env) (entry1 entry2 : ConfigEntry) (w : World) (a : string) :
  login_outcome env1 = LoginSuccess a →
  existsb is_login (new_events w (async_setup_entry env1 entry1 w).2) = true →
  entry_id entry2 = entry_id entry1 →
  state entry2 ≠ SETUP_RETRY →
  let w1 := (setup_cycle env1 entry1 w).2 in
  let cycle := setup_cycle env2 entry2 w1 in
  cycle.1 = inr true ∧
  List.filter is_login (new_events w1 cycle.2) = [] ∧
  registry_auth (entry_id entry2) cycle.2 = Some a.
Proof.
  intros Hlog Hatt Hid Hst w1 cycle. subst cycle.
  pose proof (login_success_records_auth env1 entry1 w a Hlog Hatt) as Hauth.
  fold w1 in Hauth. rewrite <- Hid in Hauth. clearbody w1.
  unfold setup_cycle.
  rewrite first_attempt_without_login by (by rewrite ?Hauth).
  rewrite new_events_after_prelude, created_tasks_debug_events.
  cbn [created_tasks omap list_omap run_tasks foldl run_task fst snd].
  set (w2 := after_prelude entry2 w1 _).
  destruct (internal_normal_setup_events env2 entry2 w2)
    as (evs & Htr & _ & Hlg & _).
  destruct (new_events_split w1 w2 _ _ evs eq_refl Htr) as [-> _].
  split; [done|]. split.
  - rewrite List.filter_app, filter_debug_events, Hlg by done. done.
  - change (internal_normal_setup env2 entry2 w2)
      with (run_task env2 (TaskNormalSetup entry2) w2).
    rewrite (run_task_registry_auth env2 entry2 (TaskNormalSetup entry2))
      by (by left).
    unfold w2. by rewrite registry_auth_after_prelude.
Qed.

Lemma authenticated_entry_not_logged_in_again_witness :
  let env := {| login_outcome := LoginSuccess "token"; cloud_devices := [] |} in
  let entry := {| entry_id := "acct"; state := NOT_LOADED;
                  data_username := Some "user@example.com";
                  data_password := Some "secret"; options_mode := None;
                  options_debug := false; update_listeners := false |} in
  let w := {| registries := []; UNIQUE_DEVICES := ∅; store := ∅;
              logger_handlers := false; trace := [] |} in
  let w1 := (setup_cycle env entry w).2 in
  List.filter is_login (new_events w1 (setup_cycle env entry w1).2) = [].
Proof.
  intros env entry w w1.
  destruct (authenticated_entry_not_logged_in_again env env entry entry w "token")
    as (_ & Hlg & _).
  - reflexivity.
  - vm_compute. reflexivity.
  - reflexivity.
  - discriminate.
  - exact Hlg.
Defined.

(** X12.  In every run of a bootstrap task the population of the
    registry comes before the transports are started: no
    [registry.setup_devices] is called after a [cloud.start] or a
    [local.start]. *)
Theorem bootstrap_populates_before_starting_transports
    (env : Env) (t : Task) (w : World) :
  population_before_starts (new_events w (run_task env t w).2) = true.
Proof.
  unfold new_events. destruct t as [entry|entry]; unfold run_task; exec.
  all: rewrite <- ?app_assoc, ?drop_app_length, ?drop_all; reflexivity.
Qed.

(** X13.  What a bootstrap task never does: it creates no task and makes
    no login; it does not start the cloud transport in mode [local] or
    without an authentication held by the registry, and it does not
    start the local transport in mode [cloud]. *)
Theorem bootstrap_transports_follow_mode
    (env : Env) (entry : ConfigEntry) (t : Task) (w : World) :
  t = TaskNormalSetup entry ∨ t = TaskCacheSetup entry →
  let evs := new_events w (run_task env t w).2 in
  created_tasks evs = [] ∧
  List.filter is_login evs = [] ∧
  (get_mode entry = "local" → List.filter is_cloud_start evs = []) ∧
  (registry_auth (entry_id entry) w = None →
   List.filter is_cloud_start evs = []) ∧
  (get_mode entry = "cloud" → List.filter is_local_start evs = []).
Proof.
  intros Ht evs. subst evs.
  assert (∃ evs, trace (run_task env t w).2 = trace w ++ evs ∧
            created_tasks evs = [] ∧ List.filter is_login evs = [] ∧
            (registry_auth (entry_id entry) w = None ∨ get_mode entry = "local" →
             List.filter is_cloud_start evs = []) ∧
            (get_mode entry = "cloud" → List.filter is_local_start evs = []))
    as (evs & Htr & Hct & Hlg & Hcs & Hls).
  { destruct Ht as [-> | ->]; cbn [run_task].
    - apply internal_normal_setup_events.
    - apply internal_cache_setup_events. }
  unfold new_events. rewrite Htr, drop_app_length.
  split; [done|]. split; [done|]. split; [|split; [|done]].
  - intros Hm. apply Hcs. by right.
  - intros Ha. apply Hcs. by left.
Qed.

Lemma bootstrap_transports_follow_mode_witness :
  let env := {| login_outcome := LoginSuccess "token"; cloud_devices := [] |} in
  let entry := {| entry_id := "acct"; state := LOADED;
                  data_username := Some "user@example.com";
                  data_password := Some "secret";
                  options_mode := Some "local";
                  options_debug := false; update_listeners := false |} in
  let w := {| registries := [("acct", {| cloud_auth := Some "token";
                                          devices := ∅ |})];
              UNIQUE_DEVICES := ∅; store := ∅;
              logger_handlers := false; trace := [] |} in
  List.filter is_cloud_start
    (new_events w (run_task env (TaskNormalSetup entry) w).2) = [].
Proof.
  intros env entry w.
  destruct (bootstrap_transports_follow_mode
              env entry (TaskNormalSetup entry) w) as (_ & _ & Hlocal & _).
  - by left.
  - apply Hlocal. reflexivity.
Defined.

(** X14.  A cache bootstrap that finds nothing in the store, or an empty
    list, goes on without devices: it returns, it changes neither the
    registries nor the ownership table nor the store, it does not call
    [registry.setup_devices], and unless the mode is [cloud] it starts
    the local transport. *)
Theorem cache_bootstrap_without_cached_devices
    (entry : ConfigEntry) (w : World) (u : string) :
  is_Some (data_get (entry_id entry) (registries w)) →
  data_username entry = Some u →
  devices_truthy (store w !! store_key u) = false →
  let run := internal_cache_setup entry None w in
  run.1 = inr tt ∧
  registries run.2 = registries w ∧
  UNIQUE_DEVICES run.2 = UNIQUE_DEVICES w ∧
  store run.2 = store w ∧
  List.filter is_setup_devices (new_events w run.2) = [] ∧
  (get_mode entry ≠ "cloud" →
   In (EvLocalStart (entry_id entry)) (new_events w run.2)).
Proof.
  intros [r Hr] Hu Hempty run. subst run. unfold new_events.
  exec.
  all: try (cbn in Hempty; discriminate).
  all: rewrite <- ?app_assoc, ?drop_app_length.
  all: repeat (split; [done|]).
  all: intros Hm; cbn.
  all: try (repeat (first [by left | right])).
  all: match goal with
       | E : negb (_ =? _) = false |- _ =>
           apply negb_false_iff, String.eqb_eq in E; done
       end.
Qed.

Lemma cache_bootstrap_without_cached_devices_witness :
  let entry := {| entry_id := "acct"; state := NOT_LOADED;
                  data_username := Some "user@example.com";
                  data_password := None; options_mode := None;
                  options_debug := false; update_listeners := false |} in
  let w := {| registries := [("acct", new_XRegistry)]; UNIQUE_DEVICES := ∅;
              store := {[ store_key "user@example.com" := [] ]};
              logger_handlers := false; trace := [] |} in
  (internal_cache_setup entry None w).1 = inr tt ∧
  In (EvLocalStart "acct") (new_events w (internal_cache_setup entry None w).2).
Proof.
  intros entry w.
  destruct (cache_bootstrap_without_cached_devices entry w "user@example.com")
    as (Hok & _ & _ & _ & _ & Hlocal).
  - by eexists.
  - reflexivity.
  - vm_compute. reflexivity.
  - split; [exact Hok | apply Hlocal; discriminate].
Defined.

(** X15.  An entry whose data has no username: every bootstrap task
    ends with [KeyError('username')] where it builds the key of the
    store.  By then it has started no transport and populated nothing,
    and the registries, the ownership table and the store are as they
    were. *)
Theorem bootstrap_without_username_raises
    (env : Env) (entry : ConfigEntry) (t : Task) (w : World) :
  t = TaskNormalSetup entry ∨ t = TaskCacheSetup entry →
  is_Some (data_get (entry_id entry) (registries w)) →
  data_username entry = None →
  let run := run_task env t w in
  run.1 = inl (KeyError "username") ∧
  registries run.2 = registries w ∧
  UNIQUE_DEVICES run.2 = UNIQUE_DEVICES w ∧
  store run.2 = store w ∧
  List.filter is_cloud_start (new_events w run.2) = [] ∧
  List.filter is_local_start (new_events w run.2) = [] ∧
  List.filter is_setup_devices (new_events w run.2) = [].
Proof.
  intros Ht [r Hr] Hu run. subst run. unfold new_events.
  destruct Ht as [-> | ->]; unfold run_task; exec.
  all: rewrite <- ?app_assoc, ?drop_app_length.
  all: by repeat split.
Qed.

Lemma bootstrap_without_username_raises_witness :
  let env := {| login_outcome := LoginSuccess "token"; cloud_devices := [] |} in
  let entry := {| entry_id := "acct"; state := NOT_LOADED;
                  data_username := None; data_password := None;
                  options_mode := None;
                  options_debug := false; update_listeners := false |} in
  let w := {| registries := [("acct", new_XRegistry)]; UNIQUE_DEVICES := ∅;
              store := ∅; logger_handlers := false; trace := [] |} in
  (run_task env (TaskNormalSetup entry) w).1 = inl (KeyError "username").
Proof.
  intros env entry w.
  destruct (bootstrap_without_username_raises
              env entry (TaskNormalSetup entry) w) as (Hres & _).
  - by left.
  - by eexists.
  - reflexivity.
  - exact Hres.
Defined.

Section CacheRoundTrip.

Variables (env : Env) (entry : ConfigEntry).

Local Abbreviation eid := (entry_id entry).

Lemma merge_devices_union devs (m : gmap string Device) :
  merge_devices devs m = merge_devices devs ∅ ∪ m.
Proof.
  induction devs as [|d devs IH] using rev_ind.
  - cbn. by rewrite (left_id_L ∅ (∪)).
  - rewrite !merge_devices_snoc, IH. by rewrite insert_union_l.
Qed.

Lemma merge_devices_idempotent devs (m : gmap string Device) :
  merge_devices devs (merge_devices devs m) = merge_devices devs m.
Proof.
  rewrite (merge_devices_union devs (merge_devices devs m)).
  rewrite (merge_devices_union devs m).
  by rewrite (assoc_L (∪)), (idemp_L (∪)).
Qed.

Lemma data_set_set k r1 r2 (rs : list (string * XRegistry)) :
  data_set k r2 (data_set k r1 rs) = data_set k r2 rs.
Proof.
  induction rs as [|[k' r0] rs IH]; cbn [data_set].
  - by rewrite String.eqb_refl.
  - destruct (String.eqb_spec k' k) as [->|Hne]; cbn [data_set].
    + by rewrite String.eqb_refl.
    + destruct (String.eqb_spec k' k); [done|]. by rewrite IH.
Qed.

(** Where the normal bootstrap leaves the world, for an account that
    holds an authentication and has a username. *)
Lemma internal_normal_setup_world w r a u :
  data_get eid (registries w) = Some r →
  cloud_auth r = Some a →
  data_username entry = Some u →
  let devs := cloud_devices env in
  let filtered := internal_unique_devices eid devs (UNIQUE_DEVICES w) in
  ∃ evs,
    (internal_normal_setup env entry w).2 =
      {| registries := populated eid devs filtered.1 r (registries w);
         UNIQUE_DEVICES := filtered.2;
         store := <[store_key u := devs]> (store w);
         logger_handlers := logger_handlers w;
         trace := trace w ++ evs |} ∧
    List.filter is_setup_devices evs =
      match devs with
      | [] => []
      | _ => [EvSetupDevices eid filtered.1]
      end.
Proof.
  intros Hr Ha Hu devs filtered. subst devs filtered.
  exec.
  all: cbn [internal_unique_devices populated fst snd].
  all: eexists; (split; [rewrite <- ?app_assoc; reflexivity|]).
  all: reflexivity.
Qed.

(** Where the cache bootstrap leaves the world when the store has a list
    of devices for the username. *)
Lemma internal_cache_setup_world w r u devs :
  data_get eid (registries w) = Some r →
  data_username entry = Some u →
  store w !! store_key u = Some devs →
  let filtered := internal_unique_devices eid devs (UNIQUE_DEVICES w) in
  ∃ evs,
    (internal_cache_setup entry None w).2 =
      {| registries := populated eid devs filtered.1 r (registries w);
         UNIQUE_DEVICES := filtered.2;
         store := store w;
         logger_handlers := logger_handlers w;
         trace := trace w ++ evs |} ∧
    List.filter is_setup_devices evs =
      match devs with
      | [] => []
      | _ => [EvSetupDevices eid filtered.1]
      end.
Proof.
  intros Hr Hu Hs filtered. subst filtered.
  exec.
  all: cbn [internal_unique_devices populated fst snd].
  all: eexists; (split; [rewrite <- ?app_assoc; reflexivity|]).
  all: reflexivity.
Qed.

End CacheRoundTrip.

(** X16.  The cache round trip.  After a normal bootstrap that got the
    devices from the cloud, the store holds these devices under the key
    of the username, and a cache bootstrap of the same entry populates
    the registry with the very same devices: it leaves the registries,
    the ownership table and the store exactly as the normal bootstrap
    left them. *)
Theorem cache_bootstrap_reproduces_cloud_bootstrap
    (env : Env) (entry : ConfigEntry) (w : World) (r : XRegistry)
    (a u : string) :
  data_get (entry_id entry) (registries w) = Some r →
  cloud_auth r = Some a →
  data_username entry = Some u →
  let w1 := (internal_normal_setup env entry w).2 in
  let w2 := (internal_cache_setup entry None w1).2 in
  store w1 !! store_key u = Some (cloud_devices env) ∧
  registries w2 = registries w1 ∧
  UNIQUE_DEVICES w2 = UNIQUE_DEVICES w1 ∧
  store w2 = store w1 ∧
  List.filter is_setup_devices (new_events w1 w2)
    = List.filter is_setup_devices (new_events w w1).
Proof.
  intros Hr Ha Hu w1 w2.
  destruct (internal_normal_setup_world env entry w r a u Hr Ha Hu)
    as (evs1 & Hw1 & Hpop1).
  fold w1 in Hw1.
  set (devs := cloud_devices env) in *.
  destruct (internal_unique_devices (entry_id entry) devs (UNIQUE_DEVICES w))
    as [kept ud'] eqn:E.
  cbn [fst snd] in Hw1, Hpop1.
  assert (Hstore : store w1 !! store_key u = Some devs).
  { rewrite Hw1. cbn [store]. apply lookup_insert_eq. }
  assert (Hr1 : ∃ r1, data_get (entry_id entry) (registries w1) = Some r1 ∧
                      cloud_auth r1 = cloud_auth r ∧
                      devices r1 = match devs with
                                   | [] => devices r
                                   | _ => merge_devices kept (devices r)
                                   end).
  { rewrite Hw1. cbn [registries]. unfold populated.
    destruct devs; [by exists r|].
    eexists. rewrite data_get_set_eq. by split. }
  destruct Hr1 as (r1 & Hr1 & Hauth1 & Hdev1).
  destruct (internal_cache_setup_world entry w1 r1 u devs Hr1 Hu Hstore)
    as (evs2 & Hw2 & Hpop2).
  fold w2 in Hw2.
  assert (Hud1 : UNIQUE_DEVICES w1 = ud') by (by rewrite Hw1).
  rewrite Hud1, (internal_unique_devices_again _ _ _ _ _ E) in Hw2, Hpop2.
  cbn [fst snd] in Hw2, Hpop2.
  split; [done|].
  assert (Hreg : populated (entry_id entry) devs kept r1 (registries w1)
                 = registries w1).
  { rewrite Hw1. cbn [registries]. unfold populated.
    destruct devs as [|d devs]; [done|].
    rewrite data_set_set, Hauth1, Hdev1.
    by rewrite merge_devices_idempotent. }
  split; [by rewrite Hw2; cbn [registries]|].
  split; [by rewrite Hw2; cbn [UNIQUE_DEVICES]|].
  split; [by rewrite Hw2; cbn [store]|].
  unfold new_events. rewrite Hw2. cbn [trace]. rewrite drop_app_length.
  rewrite Hw1. cbn [trace]. rewrite drop_app_length.
  by rewrite Hpop1, Hpop2.
Qed.

Lemma cache_bootstrap_reproduces_cloud_bootstrap_witness :
  let dev := mkDevice "1000abcd12" [("name", "plug")] in
  let env := {| login_outcome := LoginSuccess "token";
                cloud_devices := [dev; mkDevice "1000abcd13" []] |} in
  let entry := {| entry_id := "acct"; state := NOT_LOADED;
                  data_username := Some "user@example.com";
                  data_password := Some "secret"; options_mode := None;
                  options_debug := false; update_listeners := false |} in
  let r := {| cloud_auth := Some "token"; devices := ∅ |} in
  let w := {| registries := [("acct", r)];
              UNIQUE_DEVICES := {[ "1000abcd13" := "other" ]}; store := ∅;
              logger_handlers := false; trace := [] |} in
  let w1 := (internal_normal_setup env entry w).2 in
  let w2 := (internal_cache_setup entry None w1).2 in
  registries w2 = registries w1 ∧ UNIQUE_DEVICES w2 = UNIQUE_DEVICES w1.
Proof.
  intros dev env entry r w w1 w2.
  destruct (cache_bootstrap_reproduces_cloud_bootstrap
              env entry w r "token" "user@example.com")
    as (_ & Hreg & Hud & _); try reflexivity.
  split; [exact Hreg | exact Hud].
Defined.

(* ===================================================================== *)
(** ** The entry point [async_setup] *)
(* ===================================================================== *)

(** X17.  [async_setup] with an unsupported host version returns [False]
    and does nothing.  Otherwise it returns [True] whatever the YAML
    holds: it empties [hass.data[DOMAIN]], leaves the ownership table and
    the store alone, registers the service [send_command] once, as its
    last call, and starts the import flow exactly when the YAML section
    has both a username and a password and no entry exists yet; a missing
    section or key is swallowed by the [try]. *)
Theorem async_setup_import_and_service
    (supported : bool) (config : option YamlConfig) (has_entries : bool)
    (w : World) :
  let res := async_setup supported config has_entries w in
  res.1.1 = supported ∧
  (supported = false → res.1.2 = w ∧ res.2 = []) ∧
  (supported = true →
   registries res.1.2 = [] ∧
   UNIQUE_DEVICES res.1.2 = UNIQUE_DEVICES w ∧
   store res.1.2 = store w ∧
   (∃ pre, res.2 = pre ++ [RegisterService "send_command"] ∧
           ∀ n, ¬ In (RegisterService n) pre) ∧
   ∀ u p, In (FlowInit u p) res.2 ↔
          has_entries = false ∧
          ∃ c, config = Some c ∧ yaml_username c = Some u ∧
               yaml_password c = Some p).
Proof.
  intros res. subst res. unfold async_setup.
  destruct supported; cbn [negb fst snd]; (split; [done|]);
    (split; [done|]); [|done].
  intros _. cbn [registries UNIQUE_DEVICES store].
  split; [done|]. split; [done|]. split; [done|].
  unfold yaml_import_data.
  destruct config as [[[yu|] [yp|]]|]; cbn [yaml_username yaml_password];
    destruct has_entries; cbn [negb app].
  all: split;
    [ first [ eexists [_; _; _]; split; [reflexivity|]
            | eexists [_; _]; split; [reflexivity|] ];
      intros n H; cbn in H;
      repeat (destruct H as [H|H]; [discriminate H|]); exact H
    | intros u p; cbn; split;
      [ intros H; repeat (destruct H as [H|H]; [try discriminate H|]);
        try contradiction;
        try (injection H as <- <-; split; [done|by eexists])
      | intros [He (c & Hc & Hcu & Hcp)]; simplify_eq; cbn in *;
        simplify_eq; tauto ] ].
Qed.

Lemma async_setup_import_and_service_witness :
  let w := {| registries := [("old", new_XRegistry)];
              UNIQUE_DEVICES := {[ "1000abcd12" := "old" ]}; store := ∅;
              logger_handlers := false; trace := [] |} in
  let config := Some {| yaml_username := Some "user@example.com";
                        yaml_password := None |} in
  registries (async_setup true config false w).1.2 = [] ∧
  UNIQUE_DEVICES (async_setup true config false w).1.2 = UNIQUE_DEVICES w.
Proof.
  intros w config.
  destruct (async_setup_import_and_service true config false w)
    as (_ & _ & H).
  destruct (H eq_refl) as (Hreg & Hud & _).
  split; [exact Hreg | exact Hud].
Defined.
